(** * FASTQ sample pairing: [find_fastq_pairs] of [utils/generate_config.py]

    A shallow embedding of the sample resolver of the alignment pipeline
    configuration generator, and the properties of its specification.

    File names are strings of characters with codes below 256, so that
    [\d] is one of the ten digits.  The dictionary [samples] is kept in
    insertion order, as a Python [dict] is; [matched_files] is a finite
    set; what the function prints is the list of printed lines. *)

From Stdlib Require Import Ascii String.
From stdpp Require Import gmap strings list pretty.

Local Open Scope string_scope.

(** ** Strings: the [str] and [os.path] operations the resolver uses *)

Module Str.

(** [sub in s] for a one-character needle. *)
Fixpoint has_char (c : ascii) (s : string) : bool :=
  match s with
  | EmptyString => false
  | String d s' => if Ascii.eqb c d then true else has_char c s'
  end.

(** [s.startswith(p)] *)
Fixpoint startswith (p s : string) : bool :=
  match p, s with
  | EmptyString, _ => true
  | String a p', String b s' => if Ascii.eqb a b then startswith p' s' else false
  | String _ _, EmptyString => false
  end.

(** [sub in s]: [sub] occurs in [s] as a substring. *)
Fixpoint contains (sub s : string) : bool :=
  if startswith sub s then true
  else match s with
       | EmptyString => false
       | String _ s' => contains sub s'
       end.

(** [s.split(sep)[0]]: the part of [s] before the first occurrence of
    [sep], and the whole of [s] when [sep] does not occur. *)
Fixpoint split_head (sep s : string) : string :=
  if startswith sep s then EmptyString
  else match s with
       | EmptyString => EmptyString
       | String c s' => String c (split_head sep s')
       end.

(** [s.endswith(suffix)] *)
Fixpoint endswith (suffix s : string) : bool :=
  if String.eqb suffix s then true
  else match s with
       | EmptyString => false
       | String _ s' => endswith suffix s'
       end.

(** [s[:n]] *)
Fixpoint take (n : nat) (s : string) : string :=
  match n, s with
  | S n', String c s' => String c (take n' s')
  | _, _ => EmptyString
  end.

(** [os.path.basename(p)]: what follows the last slash. *)
Fixpoint basename (p : string) : string :=
  match p with
  | EmptyString => EmptyString
  | String c p' =>
      if has_char "/" p' then basename p'
      else if Ascii.eqb c "/" then p' else p
  end.

(** [os.path.join(a, b)] for a relative [b]. *)
Definition join (a b : string) : string :=
  if (String.eqb a "" || endswith "/" a)%bool then a ++ b else a ++ "/" ++ b.

End Str.

(** ** Regular expressions: the fragment of [re] that [patterns] uses

    The matcher is the backtracking one of [re]: quantifiers are greedy and
    give back one character at a time, the first way of matching that
    succeeds is the match, and a group holds the text it matched. *)

Module Re.

(** One-character items. *)
Inductive cclass :=
| Lit (c : ascii)          (* a literal character, also an escaped [\.] *)
| Dot                      (* [.]: any character but a newline *)
| Digit                    (* [\d] *)
| OneOf (cs : string).     (* [[12]] *)

Inductive regex :=
| Chr (a : cclass)
| Plus (a : cclass)               (* [a+], greedy *)
| Opt (r : regex)                 (* [r?], greedy *)
| Cat (r1 r2 : regex)
| Group (n : nat) (r : regex)     (* the [n]-th parenthesis *)
| Eos                             (* [$] *)
| Eps.                            (* the empty pattern *)

Definition newline : ascii := Ascii.ascii_of_nat 10.

Definition is_digit (c : ascii) : bool :=
  let n := Ascii.nat_of_ascii c in (48 <=? n)%nat && (n <=? 57)%nat.

Definition cmatch (a : cclass) (c : ascii) : bool :=
  match a with
  | Lit d => Ascii.eqb d c
  | Dot => negb (Ascii.eqb c newline)
  | Digit => is_digit c
  | OneOf cs => Str.has_char c cs
  end.

(** [match.group(n)] is [caps n]; [None] for a group that took no part. *)
Definition captures := nat -> option string.

Definition no_captures : captures := fun _ => None.

Definition set_group (n : nat) (v : string) (caps : captures) : captures :=
  fun m => if Nat.eqb m n then Some v else caps m.

Section Matcher.
Context {A : Type}.

(** One or more [a], the longest run first. *)
Fixpoint plus_loop (a : cclass) (s : string) (k : string -> option A)
  : option A :=
  match s with
  | EmptyString => None
  | String c s' =>
      if cmatch a c then
        match plus_loop a s' k with
        | Some r => Some r
        | None => k s'
        end
      else None
  end.
End Matcher.

(** [go r s caps k]: match [r] at the front of [s], then go on with the
    rest of the input and the groups in [k]; [None] makes the caller try
    its next alternative. *)
Fixpoint go (r : regex) (s : string) (caps : captures)
    (k : string -> captures -> option captures) : option captures :=
  match r with
  | Chr a =>
      match s with
      | String c s' => if cmatch a c then k s' caps else None
      | EmptyString => None
      end
  | Plus a => plus_loop a s (fun s' => k s' caps)
  | Opt r' =>
      match go r' s caps k with
      | Some res => Some res
      | None => k s caps
      end
  | Cat r1 r2 => go r1 s caps (fun s' caps' => go r2 s' caps' k)
  | Group n r' =>
      go r' s caps
         (fun s' caps' =>
            k s' (set_group n (Str.take (String.length s - String.length s') s) caps'))
  | Eos =>
      (* the end of the string, or just before a newline that ends it *)
      if (String.eqb s "" || String.eqb s (String newline ""))%bool
      then k s caps else None
  | Eps => k s caps
  end.

(** [re.match(pattern, s)]: anchored at the start, not at the end. *)
Definition re_match (pattern : regex) (s : string) : option captures :=
  go pattern s no_captures (fun _ caps => Some caps).

(** A literal string, character by character. *)
Fixpoint lits (s : string) : regex :=
  match s with
  | EmptyString => Eps
  | String c EmptyString => Chr (Lit c)
  | String c s' => Cat (Chr (Lit c)) (lits s')
  end.

Fixpoint cats (rs : list regex) : regex :=
  match rs with
  | [] => Eps
  | [r] => r
  | r :: rs' => Cat r (cats rs')
  end.

End Re.

(** ** Dictionaries in insertion order *)

Module Dict.

Definition dict (V : Type) := list (string * V).

Section Ops.
Context {V : Type}.

(** [d.get(k)] *)
Fixpoint get (k : string) (d : dict V) : option V :=
  match d with
  | [] => None
  | (k', v) :: d' => if String.eqb k k' then Some v else get k d'
  end.

(** [k in d] *)
Definition mem (k : string) (d : dict V) : bool :=
  match get k d with Some _ => true | None => false end.

(** [d[k] = v]: a present key keeps its place, a new one goes last. *)
Fixpoint set (k : string) (v : V) (d : dict V) : dict V :=
  match d with
  | [] => [(k, v)]
  | (k', v') :: d' =>
      if String.eqb k k' then (k', v) :: d' else (k', v') :: set k v d'
  end.

Definition keys (d : dict V) : list string := map fst d.

End Ops.

End Dict.

(** ** The resolver *)

(** The five structured patterns, in the order of the list [patterns]. *)

Definition fastq_suffix : list Re.regex :=
  [ Re.lits ".f"; Re.Opt (Re.Group 3 (Re.lits "ast")); Re.lits "q.gz"; Re.Eos ].

(** [(.+)_S\d+_L\d+_R([12])_001\.f(ast)?q\.gz$] *)
Definition pat_illumina : Re.regex :=
  Re.cats ([ Re.Group 1 (Re.Plus Re.Dot);
             Re.lits "_S"; Re.Plus Re.Digit;
             Re.lits "_L"; Re.Plus Re.Digit;
             Re.lits "_R"; Re.Group 2 (Re.Chr (Re.OneOf "12"));
             Re.lits "_001" ] ++ fastq_suffix).

(** [(.+)_R([12])\.f(ast)?q\.gz$] *)
Definition pat_simple : Re.regex :=
  Re.cats ([ Re.Group 1 (Re.Plus Re.Dot);
             Re.lits "_R"; Re.Group 2 (Re.Chr (Re.OneOf "12")) ] ++ fastq_suffix).

(** [(.+)_([12])\.f(ast)?q\.gz$] *)
Definition pat_numbered : Re.regex :=
  Re.cats ([ Re.Group 1 (Re.Plus Re.Dot);
             Re.lits "_"; Re.Group 2 (Re.Chr (Re.OneOf "12")) ] ++ fastq_suffix).

(** [(.+)_R([12])_.+\.f(ast)?q\.gz$] *)
Definition pat_extra : Re.regex :=
  Re.cats ([ Re.Group 1 (Re.Plus Re.Dot);
             Re.lits "_R"; Re.Group 2 (Re.Chr (Re.OneOf "12"));
             Re.lits "_"; Re.Plus Re.Dot ] ++ fastq_suffix).

(** [(.+)_L\d+_([12])\.f(ast)?q\.gz$] *)
Definition pat_lane : Re.regex :=
  Re.cats ([ Re.Group 1 (Re.Plus Re.Dot);
             Re.lits "_L"; Re.Plus Re.Digit;
             Re.lits "_"; Re.Group 2 (Re.Chr (Re.OneOf "12")) ] ++ fastq_suffix).

Definition patterns : list Re.regex :=
  [ pat_illumina; pat_simple; pat_numbered; pat_extra; pat_lane ].

(** The value of [samples[name]]: a dictionary with the keys ["R1"] and
    ["R2"], each holding [None] or a path. *)
Abbreviation reads := (gmap string (option string)).

(** [{"R1": None, "R2": None}] *)
Definition empty_reads : reads := <["R2" := None]> (<["R1" := None]> ∅).

(** [reads[key] is not None] *)
Definition is_set (key : string) (r : reads) : bool :=
  match r !! key with
  | Some (Some _) => true
  | _ => false
  end.

(** One recording (lines 81, 96, 102): the file, the sample name and the
    key of the slot. *)
Record event := Event { ev_file : string; ev_sample : string; ev_key : string }.

(** The local state of [find_fastq_pairs].  [history] is not a variable of
    the function: it lists, latest first, the recordings made so far, and
    nothing reads it. *)
Record state := State {
  samples : Dict.dict reads;
  matched_files : gset string;
  history : list event
}.

Definition init : state := State [] ∅ [].

(** Lines 78-82 (and 94-97, 100-103):
<<
    if sample_name not in samples:
        samples[sample_name] = {"R1": None, "R2": None}
    samples[sample_name][key] = fastq
    matched_files.add(fastq)
>> *)
Definition record (sample_name key fastq : string) (st : state) : state :=
  let samples1 :=
    if Dict.mem sample_name (samples st) then samples st
    else Dict.set sample_name empty_reads (samples st) in
  let r := default empty_reads (Dict.get sample_name samples1) in
  State (Dict.set sample_name (<[key := Some fastq]> r) samples1)
        ({[fastq]} ∪ matched_files st)
        (Event fastq sample_name key :: history st).

(** The body of the inner loop of the structured pass (lines 67-82). *)
Definition structured_step (pattern : Re.regex) (st : state) (fastq : string)
  : state :=
  if decide (fastq ∈ matched_files st) then st
  else
    let basename := Str.basename fastq in
    match Re.re_match pattern basename with
    | Some m =>
        match m 1%nat, m 2%nat with
        | Some sample_name, Some read_number =>
            record sample_name ("R" ++ read_number) fastq st
        | _, _ => st   (* not reached: groups 1 and 2 take part in every
                          match of the five patterns *)
        end
    | None => st
    end.

(** The structured pass: every pattern against every file (lines 65-82). *)
Definition pattern_pass (fastq_files : list string) (st : state)
    (pattern : Re.regex) : state :=
  fold_left (structured_step pattern) fastq_files st.

Definition structured_pass (pats : list Re.regex) (fastq_files : list string)
    (st : state) : state :=
  fold_left (pattern_pass fastq_files) pats st.

(** The body of the fallback loop (lines 86-103). *)
Definition fallback_step (st : state) (fastq : string) : state :=
  if decide (fastq ∈ matched_files st) then st
  else
    let basename := Str.basename fastq in
    if (Str.contains "_R1" basename || Str.contains "_1" basename
        || Str.contains "_R1_" basename)%bool then
      let possible_name :=
        if Str.contains "_R1" basename then Str.split_head "_R1" basename
        else Str.split_head "_1" basename in
      record possible_name "R1" fastq st
    else if (Str.contains "_R2" basename || Str.contains "_2" basename
             || Str.contains "_R2_" basename)%bool then
      let possible_name :=
        if Str.contains "_R2" basename then Str.split_head "_R2" basename
        else Str.split_head "_2" basename in
      record possible_name "R2" fastq st
    else st.

Definition fallback_pass (fastq_files : list string) (st : state) : state :=
  fold_left fallback_step fastq_files st.

(** Both passes over the candidate files (lines 62-103). *)
Definition resolve (fastq_files : list string) : state :=
  fallback_pass fastq_files (structured_pass patterns fastq_files init).

(** The warning of line 111. *)
Definition warning (sample_name : string) : string :=
  "Warning: Sample " ++ sample_name
    ++ " does not have both R1 and R2 reads. Skipping.".

(** The body of the validation loop (lines 107-111), on the pair of
    [valid_samples] and the lines printed so far. *)
Definition validate_step (acc : Dict.dict reads * list string)
    (item : string * reads) : Dict.dict reads * list string :=
  let '(sample_name, r) := item in
  if (is_set "R1" r && is_set "R2" r)%bool
  then (Dict.set sample_name r acc.1, acc.2)
  else (acc.1, (acc.2 ++ [warning sample_name])%list).

Definition validate (smpls : Dict.dict reads) : Dict.dict reads * list string :=
  fold_left validate_step smpls ([], []).

(** [find_fastq_pairs] on the list of globbed files: the returned
    [valid_samples] and the printed lines. *)
Definition pair_files (fastq_files : list string)
  : Dict.dict reads * list string :=
  validate (samples (resolve fastq_files)).

(** ** The directory scan: [glob.glob] on one directory

    [glob] lists a directory that it has reached under the path
    [dirname]; which directories it reaches from [data_dir] is the
    matter of [scanned], further down: [data_dir] itself only when the
    path holds no pattern character. *)

Module Fs.

(** An entry of the data directory: its name, and for a subdirectory the
    names inside it ([Some []] when it cannot be listed); [None] for an
    entry that is not a directory. *)
Record dirent := Dirent { d_name : string; d_listing : option (list string) }.

(** What the path [data_dir] is.  Entries come in the order the file
    system lists them. *)
Inductive dir_state :=
| Missing
| NotADirectory
| PermissionDenied
| Listable (entries : list dirent).

(** [os.path.isdir(data_dir)] *)
Definition isdir (d : dir_state) : bool :=
  match d with
  | Missing | NotADirectory => false
  | PermissionDenied | Listable _ => true
  end.

(** The names that [*suffix] matches: [*] does not match a leading dot. *)
Definition glob1 (suffix : string) (names : list string) : list string :=
  List.filter (fun n => negb (Str.startswith "." n) && Str.endswith suffix n) names.

(** What the pattern ["*" + suffix] yields in the directory [dirname],
    which is [d] on disk; [glob] gives the empty list for a directory it
    cannot list. *)
Definition glob_top (dirname : string) (d : dir_state) (suffix : string)
  : list string :=
  match d with
  | Listable entries => map (Str.join dirname) (glob1 suffix (map d_name entries))
  | _ => []
  end.

(** What the pattern ["*/*" + suffix] yields in the directory [dirname]. *)
Definition glob_sub (dirname : string) (d : dir_state) (suffix : string)
  : list string :=
  match d with
  | Listable entries =>
      flat_map
        (fun e =>
           match d_listing e with
           | Some names =>
               if Str.startswith "." (d_name e) then []
               else map (Str.join (Str.join dirname (d_name e))) (glob1 suffix names)
           | None => []
           end)
        entries
  | _ => []
  end.

End Fs.

(** Lines 43-46 for a path [data_dir] without pattern characters: the
    candidate files, the four globs one after the other ([globbed_files]
    is the list for every path). *)
Definition fastq_files (data_dir : string) (d : Fs.dir_state) : list string :=
  Fs.glob_top data_dir d ".fastq.gz" ++ Fs.glob_top data_dir d ".fq.gz"
  ++ Fs.glob_sub data_dir d ".fastq.gz" ++ Fs.glob_sub data_dir d ".fq.gz".

(** [find_fastq_pairs(data_dir)], where [data_dir] stands for the value of
    [os.path.abspath(data_dir)], a path without pattern characters, and
    [d] for what that path is on disk: the returned [valid_samples] and
    the printed lines, when every [print] succeeds
    ([find_fastq_pairs_io] is the function for every path and with the
    prints that fail). *)
Definition find_fastq_pairs (data_dir : string) (d : Fs.dir_state)
  : Dict.dict reads * list string :=
  pair_files (fastq_files data_dir d).

(** Lines 331-334 of [main]: the check of the data directory.  [Some] is
    the line printed and the status of [sys.exit]; [None] lets [main] go on. *)
Definition check_data_dir (data_dir : string) (d : Fs.dir_state)
  : option (string * nat) :=
  if negb (Fs.isdir d)
  then Some ("Error: Data directory " ++ data_dir ++ " does not exist.", 1%nat)
  else None.

(** ** Groups of a match *)

(** [sets n r]: every match of [r] goes through the [n]-th parenthesis. *)
Fixpoint sets (n : nat) (r : Re.regex) : bool :=
  match r with
  | Re.Group m r' => (Nat.eqb n m || sets n r')%bool
  | Re.Cat r1 r2 => (sets n r1 || sets n r2)%bool
  | _ => false
  end.

(** [group_of n a r]: the [n]-th parenthesis, wherever [r] has it, holds
    the one-character item [a] and nothing else. *)
Fixpoint group_of (n : nat) (a : Re.cclass) (r : Re.regex) : Prop :=
  match r with
  | Re.Group m r' => if Nat.eqb n m then r' = Re.Chr a else group_of n a r'
  | Re.Cat r1 r2 => group_of n a r1 /\ group_of n a r2
  | Re.Opt r' => group_of n a r'
  | _ => True
  end.

(** ** The slot a file goes to

    What one iteration decides depends on the file alone, once the file
    is known not to be in [matched_files]. *)

Definition slot := (string * string)%type.

(** Lines 71-76: the sample name and the key that [pattern] extracts. *)
Definition structured_slot (pattern : Re.regex) (fastq : string) : option slot :=
  match Re.re_match pattern (Str.basename fastq) with
  | Some m =>
      match m 1%nat, m 2%nat with
      | Some sample_name, Some read_number => Some (sample_name, "R" ++ read_number)
      | _, _ => None
      end
  | None => None
  end.

(** Lines 89-99: the sample name and the key of the fallback heuristic. *)
Definition fallback_slot (fastq : string) : option slot :=
  let basename := Str.basename fastq in
  if (Str.contains "_R1" basename || Str.contains "_1" basename
      || Str.contains "_R1_" basename)%bool then
    Some (if Str.contains "_R1" basename then Str.split_head "_R1" basename
          else Str.split_head "_1" basename, "R1")
  else if (Str.contains "_R2" basename || Str.contains "_2" basename
           || Str.contains "_R2_" basename)%bool then
    Some (if Str.contains "_R2" basename then Str.split_head "_R2" basename
          else Str.split_head "_2" basename, "R2")
  else None.

(** An iteration of either loop, given how it classifies a file. *)
Definition step (classify : string -> option slot) (st : state) (fastq : string)
  : state :=
  if decide (fastq ∈ matched_files st) then st
  else match classify fastq with
       | Some (sample_name, key) => record sample_name key fastq st
       | None => st
       end.

(** The classifiers in the order the passes apply them. *)
Definition classifiers : list (string -> option slot) :=
  map structured_slot patterns ++ [fallback_slot].

Definition run_passes (cs : list (string -> option slot))
    (fastq_files : list string) (st : state) : state :=
  fold_left (fun st c => fold_left (step c) fastq_files st) cs st.

(** The first classifier that accepts a file decides its slot. *)
Fixpoint first_slot (cs : list (string -> option slot)) (fastq : string)
  : option slot :=
  match cs with
  | [] => None
  | c :: cs' =>
      match c fastq with
      | Some sl => Some sl
      | None => first_slot cs' fastq
      end
  end.

(** The slot of a candidate file: that of the first structured pattern
    that matches its basename, else that of the fallback heuristic. *)
Definition slot_of (fastq : string) : option slot := first_slot classifiers fastq.

(** [samples[name]] as the recordings so far determine it. *)
Fixpoint reads_of (h : list event) (name : string) : option reads :=
  match h with
  | [] => None
  | e :: h' =>
      if String.eqb (ev_sample e) name
      then Some (<[ev_key e := Some (ev_file e)]> (default empty_reads (reads_of h' name)))
      else reads_of h' name
  end.

(** The latest file recorded into a slot. *)
Fixpoint latest (h : list event) (name key : string) : option string :=
  match h with
  | [] => None
  | e :: h' =>
      if (String.eqb (ev_sample e) name && String.eqb (ev_key e) key)%bool
      then Some (ev_file e) else latest h' name key
  end.


(** The state of a run: [matched_files] holds the files recorded so far,
    none of them twice, and [samples] is what the recordings determine. *)
Record Inv (st : state) : Prop := {
  inv_matched : forall f, f ∈ matched_files st <-> f ∈ map ev_file (history st);
  inv_nodup : NoDup (map ev_file (history st));
  inv_keys : NoDup (Dict.keys (samples st));
  inv_samples : forall name, Dict.get name (samples st) = reads_of (history st) name
}.

(** After the passes of the classifiers [cs] over the files [l]: every
    recording put a file of [l] into the slot of the first classifier
    accepting it, and every file some classifier accepts is matched. *)
Record PassInv (cs : list (string -> option slot)) (l : list string)
    (st : state) : Prop := {
  pi_inv : Inv st;
  pi_sound : forall e, e ∈ history st ->
     ev_file e ∈ l /\ first_slot cs (ev_file e) = Some (ev_sample e, ev_key e);
  pi_complete : forall f, f ∈ l -> first_slot cs f <> None -> f ∈ matched_files st
}.

(** The test of line 108 on an item of [samples]. *)
Definition complete (item : string * reads) : bool :=
  (is_set "R1" item.2 && is_set "R2" item.2)%bool.

(** ** Example inputs *)

(** The two Illumina-named files of a paired-end run. *)
Definition illumina_dir : Fs.dir_state :=
  Fs.Listable [ Fs.Dirent "run1_S1_L001_R1_001.fastq.gz" None;
                Fs.Dirent "run1_S1_L001_R2_001.fastq.gz" None ].

(** The same two files, listed the other way round. *)
Definition illumina_dir_rev : Fs.dir_state :=
  Fs.Listable [ Fs.Dirent "run1_S1_L001_R2_001.fastq.gz" None;
                Fs.Dirent "run1_S1_L001_R1_001.fastq.gz" None ].

(** [{"R1": f1, "R2": f2}] *)
Definition both_reads (f1 f2 : string) : reads :=
  <["R2" := Some f2]> (<["R1" := Some f1]> ∅).

(** Two lanes of one sample in two subdirectories, and its second mate. *)
Definition lanes_dir : Fs.dir_state :=
  Fs.Listable [ Fs.Dirent "a" (Some ["s_R1.fastq.gz"]);
                Fs.Dirent "b" (Some ["s_R1.fastq.gz"]);
                Fs.Dirent "s_R2.fastq.gz" None ].

(** The same entries, the two subdirectories listed the other way round. *)
Definition lanes_dir_rev : Fs.dir_state :=
  Fs.Listable [ Fs.Dirent "b" (Some ["s_R1.fastq.gz"]);
                Fs.Dirent "a" (Some ["s_R1.fastq.gz"]);
                Fs.Dirent "s_R2.fastq.gz" None ].

(** One mate only of a sample. *)
Definition only_R1 : list string := ["/data/sampleA_R1.fastq.gz"].
Definition only_R2 : list string := ["/data/sampleA_R2.fastq.gz"].


Definition two_tokens : string := "/data/a_1b_2c.fastq.gz".

(** ** What a pattern matches *)

(** [all_match a w]: every character of [w] is one of [a]. *)
Fixpoint all_match (a : Re.cclass) (w : string) : bool :=
  match w with
  | EmptyString => true
  | String c w' => (Re.cmatch a c && all_match a w')%bool
  end.

(** [lang r s s']: [r] matches a prefix of [s] and leaves [s']. *)
Fixpoint lang (r : Re.regex) (s s' : string) : Prop :=
  match r with
  | Re.Chr a => exists c, s = String c s' /\ Re.cmatch a c = true
  | Re.Plus a => exists w, w <> "" /\ all_match a w = true /\ s = (w ++ s')%string
  | Re.Opt r' => lang r' s s' \/ s' = s
  | Re.Cat r1 r2 => exists mid, lang r1 s mid /\ lang r2 mid s'
  | Re.Group _ r' => lang r' s s'
  | Re.Eos => s' = s /\ (s = "" \/ s = String Re.newline "")
  | Re.Eps => s' = s
  end.

(** [mentions n r]: [r] has an [n]-th parenthesis. *)
Fixpoint mentions (n : nat) (r : Re.regex) : bool :=
  match r with
  | Re.Group m r' => (Nat.eqb n m || mentions n r')%bool
  | Re.Cat r1 r2 => (mentions n r1 || mentions n r2)%bool
  | Re.Opt r' => mentions n r'
  | _ => false
  end.

(** The list [patterns] without its last pattern. *)
Definition patterns_without_lane : list Re.regex :=
  [ pat_illumina; pat_simple; pat_numbered; pat_extra ].

(** ** The function in full: a path that is a pattern, prints that fail *)

(** [glob.has_magic(s)]: one of the characters [*], [?] and [[] occurs
    in [s]. *)
Definition has_magic (s : string) : bool :=
  (Str.has_char "*" s || Str.has_char "?" s || Str.has_char "[" s)%bool.

(** What the disk holds for the path [data_dir].  [at_path] is what the
    path itself names, as [os.path.isdir] sees it.  [expansion] is read
    when the path holds a pattern character, which [glob] does not
    escape: the paths that [glob] expands [data_dir] to, in its order,
    each with what it names. *)
Record disk := Disk {
  at_path : Fs.dir_state;
  expansion : list (string * Fs.dir_state)
}.

(** The directories that the globs of lines 43-46 list. *)
Definition scanned (data_dir : string) (k : disk) : list (string * Fs.dir_state) :=
  if has_magic data_dir then expansion k else [(data_dir, at_path k)].

(** [glob.glob(os.path.join(data_dir, "*" + suffix))] *)
Definition glob_files (data_dir : string) (k : disk) (suffix : string) : list string :=
  flat_map (fun pd => Fs.glob_top pd.1 pd.2 suffix) (scanned data_dir k).

(** [glob.glob(os.path.join(data_dir, "*/*" + suffix))] *)
Definition glob_subfiles (data_dir : string) (k : disk) (suffix : string) : list string :=
  flat_map (fun pd => Fs.glob_sub pd.1 pd.2 suffix) (scanned data_dir k).

(** Lines 43-46: the candidate files. *)
Definition globbed_files (data_dir : string) (k : disk) : list string :=
  (glob_files data_dir k ".fastq.gz" ++ glob_files data_dir k ".fq.gz"
   ++ glob_subfiles data_dir k ".fastq.gz" ++ glob_subfiles data_dir k ".fq.gz")%list.

(** The validation loop (lines 106-112) with a [print] that raises, as
    it does on a line that the standard output cannot encode:
    [can_print line] tells whether the line gets out.  The result is the
    lines printed and [valid_samples], or [None] when [print] raised. *)
Fixpoint validate_io (can_print : string -> bool) (items : list (string * reads))
    (valid_samples : Dict.dict reads) (out : list string)
  : list string * option (Dict.dict reads) :=
  match items with
  | [] => (out, Some valid_samples)
  | (sample_name, r) :: rest =>
      if (is_set "R1" r && is_set "R2" r)%bool
      then validate_io can_print rest (Dict.set sample_name r valid_samples) out
      else if can_print (warning sample_name)
           then validate_io can_print rest valid_samples
                            (out ++ [warning sample_name])%list
           else (out, None)
  end.

(** [find_fastq_pairs(data_dir)] from line 43 on, where [data_dir]
    stands for the value of [os.path.abspath(data_dir)]: the lines
    printed, and the returned [valid_samples] or [None] for an
    exception. *)
Definition find_fastq_pairs_io (can_print : string -> bool) (data_dir : string)
    (k : disk) : list string * option (Dict.dict reads) :=
  validate_io can_print (samples (resolve (globbed_files data_dir k))) [] [].



(** A standard output that takes every line. *)
Definition prints_all : string -> bool := fun _ => true.

(** ** The command line, [main] and the Snakemake configuration *)

(** The namespace that [parse_arguments] returns. *)
Module Args.
Record t := Make {
  data_dir : string;
  ref_genome : string;
  known_variants : option string;
  output : string;
  adapter : string;
  pipeline : string;
  threads : Z;
  memory : Z;
  create_dirs : bool;
  prefix : string
}.
End Args.

(** The truth value of an optional string: [None] and the empty string
    are false. *)
Definition truthy (o : option string) : bool :=
  match o with
  | Some s => negb (String.eqb s "")
  | None => false
  end.

(** The dictionary that [generate_snakemake_config] returns; its five
    keys are the fields. *)
Record config := Config {
  cfg_samples : Dict.dict reads;
  cfg_reference : Dict.dict string;
  cfg_threads : Dict.dict Z;
  cfg_params : Dict.dict (Dict.dict string);
  cfg_output_dirs : Dict.dict string
}.

(** A double quote. *)
Definition dq : string := String (Ascii.ascii_of_nat 34) "".

(** [--filter-name "name" --filter "expr" ] *)
Definition filter_arg (name expr : string) : string :=
  ("--filter-name " ++ dq ++ name ++ dq ++ " --filter " ++ dq ++ expr ++ dq)%string.

(** The value of [variant_filtering.filters] (lines 139-144). *)
Definition variant_filters : string :=
  (filter_arg "QD_filter" "QD < 2.0" ++ " "
   ++ filter_arg "FS_filter" "FS > 60.0" ++ " "
   ++ filter_arg "MQ_filter" "MQ < 40.0" ++ " "
   ++ filter_arg "SOR_filter" "SOR > 3.0" ++ " "
   ++ filter_arg "ReadPosRankSum_filter" "ReadPosRankSum < -8.0" ++ " "
   ++ filter_arg "MQRankSum_filter" "MQRankSum < -12.5")%string.

(** [{"R1": reads["R1"], "R2": reads["R2"]}] (lines 164-167); [None]
    stands for the [KeyError] of a missing key. *)
Definition copy_reads (r : reads) : option reads :=
  match r !! "R1", r !! "R2" with
  | Some r1, Some r2 => Some (<["R2" := r2]> (<["R1" := r1]> ∅))
  | _, _ => None
  end.

(** The loop of lines 163-167 on [config["samples"]]. *)
Fixpoint add_samples (items : list (string * reads)) (acc : Dict.dict reads)
  : option (Dict.dict reads) :=
  match items with
  | [] => Some acc
  | (sample_name, r) :: rest =>
      match copy_reads r with
      | Some c => add_samples rest (Dict.set sample_name c acc)
      | None => None
      end
  end.

(** [generate_snakemake_config(samples, args)] (lines 116-169). *)
Definition generate_snakemake_config (smpls : Dict.dict reads) (a : Args.t)
  : option config :=
  let reference := [("genome", Args.ref_genome a)] in
  let threads :=
    [ ("fastqc", Z.min 2 (Args.threads a));
      ("trimmomatic", Args.threads a);
      ("bwa", Args.threads a);
      ("samtools", Z.min 4 (Args.threads a));
      ("gatk", Z.min 4 (Args.threads a)) ] in
  let params :=
    [ ("trimmomatic",
       [ ("adapter", Args.adapter a);
         ("trimmer", "LEADING:3 TRAILING:3 SLIDINGWINDOW:4:15 MINLEN:36") ]);
      ("bwa", [ ("mem_options", "-M") ]);
      ("variant_filtering", [ ("filters", variant_filters) ]) ] in
  let output_dirs :=
    [ ("fastqc", "results/fastqc");
      ("trimmed", "results/trimmed");
      ("aligned", "results/aligned");
      ("dedup", "results/dedup");
      ("variants", "results/variants");
      ("filtered", "results/filtered");
      ("qc", "results/qc") ] in
  let reference :=
    if truthy (Args.known_variants a)
    then Dict.set "known_sites" (default "" (Args.known_variants a)) reference
    else reference in
  match add_samples smpls [] with
  | Some s => Some (Config s reference threads params output_dirs)
  | None => None
  end.

(** How the part of [main] before the configurations ends: [sys.exit],
    an exception, or going on to line 356 with [samples]. *)
Inductive outcome :=
| Exit (status : nat)
| Raised
| GoesOn (smpls : Dict.dict reads).

(** The line of [main] for one sample (line 354); [None] for the failure
    of [os.path.basename] on [None] or of a missing key. *)
Definition sample_line (sample_name : string) (r : reads) : option string :=
  match r !! "R1", r !! "R2" with
  | Some (Some f1), Some (Some f2) =>
      Some ("  - " ++ sample_name ++ ": " ++ Str.basename f1 ++ " and "
            ++ Str.basename f2)%string
  | _, _ => None
  end.

(** The loop of lines 353-354: the lines printed, and whether it ended
    without an exception; it stops at a line that cannot be built or
    cannot be printed. *)
Fixpoint sample_lines (can_print : string -> bool) (items : list (string * reads))
  : list string * bool :=
  match items with
  | [] => ([], true)
  | (sample_name, r) :: rest =>
      match sample_line sample_name r with
      | Some line =>
          if can_print line
          then let '(ls, ok) := sample_lines can_print rest in (line :: ls, ok)
          else ([], false)
      | None => ([], false)
      end
  end.

(** [main] from line 331 to line 354: what it prints and how it ends.
    [abs_dir] stands for [os.path.abspath(args.data_dir)], [k] for what
    the disk holds there, [ref_is_file] for [os.path.isfile] of the
    reference genome, and [created] for what the call of
    [create_directory_structure] does when [--create_dirs] is given: the
    lines it prints and whether it returns (it raises when a directory
    or the adapter file cannot be made). *)
Definition main_scan (can_print : string -> bool) (a : Args.t) (abs_dir : string)
    (k : disk) (ref_is_file : bool) (created : list string * bool)
  : list string * outcome :=
  match check_data_dir (Args.data_dir a) (at_path k) with
  | Some (line, status) =>
      if can_print line then ([line], Exit status) else ([], Raised)
  | None =>
      if negb ref_is_file then
        let line := ("Error: Reference genome file " ++ Args.ref_genome a
                     ++ " does not exist.")%string in
        if can_print line then ([line], Exit 1) else ([], Raised)
      else
        let '(made, returned) :=
          if Args.create_dirs a then created else ([], true) in
        if negb returned then (made, Raised)
        else
          let scan := ("Scanning " ++ Args.data_dir a ++ " for FASTQ files...")%string in
          if negb (can_print scan) then (made, Raised)
          else
            let out := (made ++ [scan])%list in
            match find_fastq_pairs_io can_print abs_dir k with
            | (printed, None) => ((out ++ printed)%list, Raised)
            | (printed, Some smpls) =>
                let out := (out ++ printed)%list in
                match smpls with
                | [] =>
                    let line := "Error: No valid paired-end FASTQ files found." in
                    if can_print line then ((out ++ [line])%list, Exit 1)
                    else (out, Raised)
                | _ :: _ =>
                    let line := ("Found " ++ pretty (length smpls)
                                 ++ " samples with paired-end reads:")%string in
                    if negb (can_print line) then (out, Raised)
                    else
                      let '(ls, ok) := sample_lines can_print smpls in
                      (((out ++ [line]) ++ ls)%list,
                       if ok then GoesOn smpls else Raised)
                end
            end
  end.

(** * Properties *)

Local Open Scope list_scope.

(** ** Dictionaries *)

Section DictFacts.
Context {V : Type}.
Implicit Types (d : Dict.dict V) (k : string) (v : V).

Lemma dict_get_set_eq d k v : Dict.get k (Dict.set k v d) = Some v.
Proof.
  induction d as [|[k' v'] d IH]; simpl.
  - by rewrite String.eqb_refl.
  - destruct (String.eqb k k') eqn:E; simpl; rewrite E; [done | exact IH].
Qed.

Lemma dict_get_set_ne d k k' v :
  k <> k' -> Dict.get k' (Dict.set k v d) = Dict.get k' d.
Proof.
  intros Hne. induction d as [|[k0 v0] d IH]; simpl.
  - destruct (String.eqb k' k) eqn:E; [|done].
    apply String.eqb_eq in E. congruence.
  - destruct (String.eqb k k0) eqn:E; simpl.
    + apply String.eqb_eq in E. subst k0.
      destruct (String.eqb k' k) eqn:E'; [|done].
      apply String.eqb_eq in E'. congruence.
    + by rewrite IH.
Qed.

Lemma dict_get_None d k : Dict.get k d = None <-> k ∉ Dict.keys d.
Proof.
  induction d as [|[k' v'] d IH]; simpl.
  - split; [intros _; apply not_elem_of_nil | done].
  - rewrite not_elem_of_cons. destruct (String.eqb k k') eqn:E.
    + apply String.eqb_eq in E. split; [done | intros [? _]; done].
    + apply String.eqb_neq in E. rewrite IH. tauto.
Qed.

Lemma dict_set_fresh d k v : k ∉ Dict.keys d -> Dict.set k v d = d ++ [(k, v)].
Proof.
  induction d as [|[k' v'] d IH]; simpl; [done|].
  rewrite not_elem_of_cons. intros [Hne Hnin].
  destruct (String.eqb k k') eqn:E.
  - apply String.eqb_eq in E. done.
  - by rewrite IH.
Qed.

Lemma dict_keys_set d k v :
  Dict.keys (Dict.set k v d)
  = if Dict.mem k d then Dict.keys d else Dict.keys d ++ [k].
Proof.
  unfold Dict.mem. induction d as [|[k' v'] d IH]; simpl; [done|].
  destruct (String.eqb k k') eqn:E; simpl; [done|].
  rewrite IH. by destruct (Dict.get k d).
Qed.

Lemma dict_keys_set_NoDup d k v :
  NoDup (Dict.keys d) -> NoDup (Dict.keys (Dict.set k v d)).
Proof.
  intros Hnd. rewrite dict_keys_set. unfold Dict.mem.
  destruct (Dict.get k d) eqn:E; [done|].
  apply dict_get_None in E.
  apply NoDup_app. split_and!; [done | | apply NoDup_singleton].
  intros x Hx Hx'. apply list_elem_of_singleton in Hx'. by subst.
Qed.

End DictFacts.

(** ** The loops as passes of classifiers *)

Lemma structured_step_step p st f :
  structured_step p st f = step (structured_slot p) st f.
Proof.
  unfold structured_step, step, structured_slot.
  destruct (decide _); [done|].
  destruct (Re.re_match _ _) as [m|]; [|done].
  by destruct (m 1%nat), (m 2%nat).
Qed.

Lemma fallback_step_step st f : fallback_step st f = step fallback_slot st f.
Proof.
  unfold fallback_step, step, fallback_slot.
  destruct (decide _); [done|].
  destruct (_ || _ || _)%bool; [done|].
  by destruct (_ || _ || _)%bool.
Qed.

Lemma pattern_pass_step l : forall st p,
  pattern_pass l st p = fold_left (step (structured_slot p)) l st.
Proof.
  unfold pattern_pass. induction l as [|f l IH]; intros st p; simpl; [done|].
  by rewrite structured_step_step, IH.
Qed.

Lemma structured_pass_run pats l : forall st,
  structured_pass pats l st = run_passes (map structured_slot pats) l st.
Proof.
  unfold structured_pass, run_passes.
  induction pats as [|p pats IH]; intros st; simpl; [done|].
  by rewrite pattern_pass_step, IH.
Qed.

Lemma fallback_pass_run l : forall st,
  fallback_pass l st = fold_left (step fallback_slot) l st.
Proof.
  unfold fallback_pass. induction l as [|f l IH]; intros st; simpl; [done|].
  by rewrite fallback_step_step, IH.
Qed.

Lemma resolve_run l : resolve l = run_passes classifiers l init.
Proof.
  unfold resolve, classifiers.
  rewrite structured_pass_run, fallback_pass_run.
  unfold run_passes. by rewrite fold_left_app.
Qed.

(** ** One recording *)

Lemma Inv_init : Inv init.
Proof.
  split; simpl; try done; try apply NoDup_nil_2.
  intros f. by rewrite elem_of_empty, elem_of_nil.
Qed.

Lemma Inv_record name key f st :
  Inv st -> f ∉ matched_files st -> Inv (record name key f st).
Proof.
  intros [Hm Hnd Hk Hs] Hf. split; simpl.
  - intros g. rewrite elem_of_union, elem_of_singleton, elem_of_cons, Hm. done.
  - apply NoDup_cons. split; [by rewrite <- Hm | done].
  - apply dict_keys_set_NoDup. destruct (Dict.mem _ _); [done|].
    by apply dict_keys_set_NoDup.
  - intros name'. destruct (String.eqb name name') eqn:E.
    + apply String.eqb_eq in E. subst name'.
      rewrite dict_get_set_eq. f_equal. f_equal. rewrite <- Hs.
      unfold Dict.mem. destruct (Dict.get name (samples st)) eqn:G.
      * by rewrite G.
      * by rewrite dict_get_set_eq.
    + apply String.eqb_neq in E.
      rewrite dict_get_set_ne by done. rewrite <- Hs.
      destruct (Dict.mem _ _); [done|]. by rewrite dict_get_set_ne.
Qed.

Lemma Inv_step c st f : Inv st -> Inv (step c st f).
Proof.
  intros HI. unfold step. destruct (decide _) as [|Hf]; [done|].
  destruct (c f) as [[n k]|]; [|done]. by apply Inv_record.
Qed.

Lemma step_matched_mono c st f g :
  g ∈ matched_files st -> g ∈ matched_files (step c st f).
Proof.
  unfold step. destruct (decide _) as [|Hf]; [done|].
  destruct (c f) as [[n k]|]; [|done]. simpl. set_solver.
Qed.

(** ** The passes *)

Lemma first_slot_snoc cs c f :
  first_slot (cs ++ [c]) f
  = match first_slot cs f with Some sl => Some sl | None => c f end.
Proof.
  induction cs as [|c' cs IH]; simpl.
  - by destruct (c f).
  - by destruct (c' f).
Qed.

Lemma first_slot_app cs1 cs2 f :
  first_slot (cs1 ++ cs2) f
  = match first_slot cs1 f with Some sl => Some sl | None => first_slot cs2 f end.
Proof.
  induction cs1 as [|c' cs IH]; simpl; [done|].
  by destruct (c' f).
Qed.

Lemma pass_inner cs c (l : list string) : forall l2 l1 st,
  (forall f, f ∈ l2 -> f ∈ l) ->
  Inv st ->
  (forall e, e ∈ history st ->
     ev_file e ∈ l /\ first_slot (cs ++ [c]) (ev_file e) = Some (ev_sample e, ev_key e)) ->
  (forall f, f ∈ l -> first_slot cs f <> None -> f ∈ matched_files st) ->
  (forall f, f ∈ l1 -> c f <> None -> f ∈ matched_files st) ->
  let st' := fold_left (step c) l2 st in
  Inv st'
  /\ (forall e, e ∈ history st' ->
        ev_file e ∈ l /\ first_slot (cs ++ [c]) (ev_file e) = Some (ev_sample e, ev_key e))
  /\ (forall f, f ∈ l -> first_slot cs f <> None -> f ∈ matched_files st')
  /\ (forall f, f ∈ l1 ++ l2 -> c f <> None -> f ∈ matched_files st').
Proof.
  induction l2 as [|g l2 IH]; intros l1 st Hsub HI Hsound Hcs Hc; simpl.
  - rewrite app_nil_r. done.
  - assert (Hgl : g ∈ l) by (apply Hsub; left).
    specialize (IH (l1 ++ [g]) (step c st g)).
    rewrite <- app_assoc in IH. simpl in IH. apply IH; clear IH.
    + intros f Hf. apply Hsub. by right.
    + by apply Inv_step.
    + unfold step. destruct (decide _) as [|Hg]; [done|].
      destruct (c g) as [[n k]|] eqn:Ec; [|done]. simpl.
      intros e He. apply elem_of_cons in He as [->|He]; [|by apply Hsound].
      simpl. split; [done|]. rewrite first_slot_snoc.
      destruct (first_slot cs g) eqn:Efs; [|done].
      exfalso. apply Hg, Hcs; [done|]. by rewrite Efs.
    + intros f Hf Hfs. by apply step_matched_mono, Hcs.
    + intros f [Hf| ->%list_elem_of_singleton]%elem_of_app Hcf.
      * by apply step_matched_mono, Hc.
      * unfold step. destruct (decide _) as [|Hg]; [done|].
        destruct (c g) as [[n k]|] eqn:Ec; [|done]. simpl.
        apply elem_of_union. left. by apply elem_of_singleton.
Qed.

Lemma pass_outer cs c l st :
  PassInv cs l st -> PassInv (cs ++ [c]) l (fold_left (step c) l st).
Proof.
  intros [HI Hs Hc].
  destruct (pass_inner cs c l l [] st) as (HI' & Hs' & Hc' & Hcc); try done.
  - intros e He. destruct (Hs e He) as [? Hfs]. split; [done|].
    by rewrite first_slot_snoc, Hfs.
  - intros f Hf. by apply elem_of_nil in Hf.
  - split; [done | done |].
    intros f Hf Hfs. rewrite first_slot_snoc in Hfs.
    destruct (first_slot cs f) eqn:Efs.
    + apply Hc'; [done|]. by rewrite Efs.
    + by apply Hcc.
Qed.

Lemma run_passes_inv l : forall cs2 cs1 st,
  PassInv cs1 l st -> PassInv (cs1 ++ cs2) l (run_passes cs2 l st).
Proof.
  unfold run_passes.
  induction cs2 as [|c cs2 IH]; intros cs1 st Hpi; simpl.
  - by rewrite app_nil_r.
  - replace (cs1 ++ c :: cs2) with ((cs1 ++ [c]) ++ cs2) by (by rewrite <- app_assoc).
    by apply IH, pass_outer.
Qed.

Lemma resolve_inv l : PassInv classifiers l (resolve l).
Proof.
  rewrite resolve_run. apply (run_passes_inv l classifiers []).
  split; [apply Inv_init | | done].
  simpl. intros e He. by apply elem_of_nil in He.
Qed.

(** ** Validation *)

Lemma validate_fold (s : Dict.dict reads) : forall v out,
  NoDup (Dict.keys v ++ Dict.keys s) ->
  fold_left validate_step s (v, out)
  = (v ++ List.filter complete s,
     out ++ map (fun it => warning it.1) (List.filter (fun it => negb (complete it)) s)).
Proof.
  induction s as [|[k r] s IH]; intros v out Hnd; simpl.
  - by rewrite !app_nil_r.
  - change (is_set "R1" r && is_set "R2" r)%bool with (complete (k, r)).
    assert (Hk : k ∉ Dict.keys v).
    { apply NoDup_app in Hnd as (_ & Hd & _). intros Hin.
      apply (Hd k Hin). left. }
    assert (Hnd' : forall x, NoDup (Dict.keys (v ++ [(k, x)]) ++ Dict.keys s)).
    { intros x. unfold Dict.keys in *. rewrite map_app. simpl.
      by rewrite <- app_assoc. }
    destruct (complete (k, r)) eqn:E; simpl.
    + rewrite dict_set_fresh by done. rewrite IH by apply Hnd'.
      by rewrite <- app_assoc.
    + rewrite IH.
      * by rewrite <- app_assoc.
      * apply NoDup_app in Hnd as (Hv & Hd & Hs). apply NoDup_app.
        split_and!; [done | | by apply NoDup_cons in Hs as [_ ?]].
        intros x Hx Hx'. apply (Hd x Hx). by right.
Qed.

Lemma validate_eq (s : Dict.dict reads) :
  NoDup (Dict.keys s) ->
  validate s
  = (List.filter complete s,
     map (fun it => warning it.1) (List.filter (fun it => negb (complete it)) s)).
Proof. intros Hnd. unfold validate. by rewrite validate_fold. Qed.

Lemma dict_get_filter {V} (P : string * V -> bool) (d : Dict.dict V) name :
  NoDup (Dict.keys d) ->
  Dict.get name (List.filter P d)
  = match Dict.get name d with
    | Some v => if P (name, v) then Some v else None
    | None => None
    end.
Proof.
  induction d as [|[k v] d IH]; intros Hnd; simpl; [done|].
  apply NoDup_cons in Hnd as [Hk Hnd].
  destruct (String.eqb name k) eqn:E.
  - apply String.eqb_eq in E. subst k.
    destruct (P (name, v)); simpl.
    + by rewrite String.eqb_refl.
    + apply dict_get_None. intros Hin. apply Hk.
      unfold Dict.keys in *. apply list_elem_of_fmap in Hin as (x & -> & Hx).
      apply list_elem_of_fmap. exists x. split; [done|].
      apply list_elem_of_In, filter_In in Hx as [Hx _]. by apply list_elem_of_In.
  - destruct (P (k, v)); simpl; [rewrite E|]; by apply IH.
Qed.

Lemma dict_get_elem {V} (d : Dict.dict V) name v :
  Dict.get name d = Some v -> (name, v) ∈ d.
Proof.
  induction d as [|[k v'] d IH]; simpl; [done|].
  destruct (String.eqb name k) eqn:E.
  - apply String.eqb_eq in E. intros [= ->]. subst. left.
  - intros H. right. by apply IH.
Qed.

(** ** The dictionary [samples] and the recordings *)

Lemma empty_reads_lookup key f : empty_reads !! key <> Some (Some f).
Proof.
  unfold empty_reads. rewrite !lookup_insert.
  repeat case_decide; done.
Qed.

Lemma event_eta e : e = Event (ev_file e) (ev_sample e) (ev_key e).
Proof. by destruct e. Qed.

Lemma latest_Some h name key f :
  latest h name key = Some f -> Event f name key ∈ h.
Proof.
  induction h as [|e h IH]; simpl; [done|].
  destruct (String.eqb (ev_sample e) name && String.eqb (ev_key e) key)%bool eqn:E.
  - apply andb_true_iff in E as [E1%String.eqb_eq E2%String.eqb_eq].
    intros [= <-]. subst. rewrite <- event_eta. left.
  - intros H. right. by apply IH.
Qed.

Lemma latest_None h name key f :
  latest h name key = None -> Event f name key ∉ h.
Proof.
  induction h as [|e h IH]; simpl; [intros _; apply not_elem_of_nil|].
  destruct (String.eqb (ev_sample e) name && String.eqb (ev_key e) key)%bool eqn:E;
    [done|].
  intros H. apply not_elem_of_cons. split; [|by apply IH].
  intros Heq. subst e. simpl in E. by rewrite !String.eqb_refl in E.
Qed.

Lemma reads_of_None h name :
  reads_of h name = None <-> forall e, e ∈ h -> ev_sample e <> name.
Proof.
  induction h as [|e h IH]; simpl.
  - split; [|done]. intros _ e He. by apply elem_of_nil in He.
  - destruct (String.eqb (ev_sample e) name) eqn:E.
    + apply String.eqb_eq in E. split; [done|]. intros H. exfalso.
      apply (H e); [left | done].
    + apply String.eqb_neq in E. rewrite IH. split.
      * intros H e' [->|He']%elem_of_cons; [done | by apply H].
      * intros H e' He'. apply H. by right.
Qed.

Lemma reads_of_None_latest h name key :
  reads_of h name = None -> latest h name key = None.
Proof.
  intros H. destruct (latest h name key) as [f|] eqn:E; [|done].
  apply latest_Some in E. by apply (proj1 (reads_of_None h name) H) in E.
Qed.

Lemma reads_of_lookup h name : forall r key,
  reads_of h name = Some r ->
  r !! key = match latest h name key with
             | Some f => Some (Some f)
             | None => empty_reads !! key
             end.
Proof.
  induction h as [|e h IH]; intros r key; simpl; [done|].
  destruct (String.eqb (ev_sample e) name) eqn:E; simpl; [|by apply IH].
  intros [= <-]. destruct (String.eqb (ev_key e) key) eqn:E'.
  - apply String.eqb_eq in E'. subst key. by rewrite lookup_insert_eq.
  - apply String.eqb_neq in E'. rewrite lookup_insert_ne by done.
    destruct (reads_of h name) as [r'|] eqn:Er; simpl.
    + by apply IH.
    + by rewrite reads_of_None_latest.
Qed.

Lemma slot_event st name r key f :
  Inv st -> Dict.get name (samples st) = Some r -> r !! key = Some (Some f) ->
  Event f name key ∈ history st.
Proof.
  intros [_ _ _ Hs] Hg Hr. rewrite Hs in Hg.
  rewrite (reads_of_lookup _ _ _ key Hg) in Hr.
  destruct (latest _ _ _) as [f'|] eqn:E.
  - injection Hr as <-. by apply latest_Some.
  - by apply empty_reads_lookup in Hr.
Qed.

(** ** The result of a run *)

Lemma pair_files_eq l :
  pair_files l
  = (List.filter complete (samples (resolve l)),
     map (fun it => warning it.1)
         (List.filter (fun it => negb (complete it)) (samples (resolve l)))).
Proof. unfold pair_files. apply validate_eq, inv_keys, pi_inv with classifiers l, resolve_inv. Qed.

Lemma valid_get l name :
  Dict.get name (pair_files l).1
  = match Dict.get name (samples (resolve l)) with
    | Some r => if complete (name, r) then Some r else None
    | None => None
    end.
Proof.
  rewrite pair_files_eq. simpl. apply dict_get_filter.
  apply inv_keys, pi_inv with classifiers l, resolve_inv.
Qed.

Lemma warning_elem l name r :
  Dict.get name (samples (resolve l)) = Some r ->
  complete (name, r) = false ->
  warning name ∈ (pair_files l).2.
Proof.
  intros Hg Hc. rewrite pair_files_eq. simpl.
  apply list_elem_of_fmap. exists (name, r). split; [done|].
  apply list_elem_of_In, filter_In. split.
  - by apply list_elem_of_In, dict_get_elem.
  - by rewrite Hc.
Qed.

Lemma is_set_true key (r : reads) :
  is_set key r = true -> exists f, r !! key = Some (Some f).
Proof.
  unfold is_set. destruct (r !! key) as [[f|]|]; try done. by exists f.
Qed.

(** C1. Every sample of the mapping that [find_fastq_pairs] returns has a
    file in its R1 entry and a file in its R2 entry. *)
Theorem C1_valid_samples_complete data_dir d name (r : reads) :
  Dict.get name (find_fastq_pairs data_dir d).1 = Some r ->
  exists f1 f2, r !! "R1" = Some (Some f1) /\ r !! "R2" = Some (Some f2).
Proof.
  unfold find_fastq_pairs. rewrite valid_get.
  destruct (Dict.get name (samples _)) as [r'|]; [|done].
  destruct (complete (name, r')) eqn:E; [|done].
  intros [= ->]. apply andb_true_iff in E as [E1 E2]. simpl in *.
  apply is_set_true in E1 as [f1 ?], E2 as [f2 ?]. by exists f1, f2.
Qed.

Lemma C1_valid_samples_complete_witness :
  exists f1 f2,
    both_reads "/data/run1_S1_L001_R1_001.fastq.gz"
               "/data/run1_S1_L001_R2_001.fastq.gz" !! "R1" = Some (Some f1)
    /\ both_reads "/data/run1_S1_L001_R1_001.fastq.gz"
                  "/data/run1_S1_L001_R2_001.fastq.gz" !! "R2" = Some (Some f2).
Proof.
  apply (C1_valid_samples_complete "/data" illumina_dir "run1").
  vm_compute. reflexivity.
Defined.

(** C8. For the pair run1_S1_L001_R1_001.fastq.gz and
    run1_S1_L001_R2_001.fastq.gz, in either listing order, the pass of the
    Illumina pattern alone records both files under the sample run1, and
    the result is exactly the sample run1 with the R1 file in its R1 entry
    and the R2 file in its R2 entry, with nothing printed; the fallback
    heuristic would have named the sample run1_S1_L001. *)
Theorem C8_illumina_priority :
  let f1 := "/data/run1_S1_L001_R1_001.fastq.gz" in
  let f2 := "/data/run1_S1_L001_R2_001.fastq.gz" in
  find_fastq_pairs "/data" illumina_dir = ([("run1", both_reads f1 f2)], [])
  /\ find_fastq_pairs "/data" illumina_dir_rev = ([("run1", both_reads f1 f2)], [])
  /\ history (pattern_pass (fastq_files "/data" illumina_dir) init pat_illumina)
     = [Event f2 "run1" "R2"; Event f1 "run1" "R1"]
  /\ history (resolve (fastq_files "/data" illumina_dir))
     = [Event f2 "run1" "R2"; Event f1 "run1" "R1"]
  /\ fallback_slot f1 = Some ("run1_S1_L001", "R1")
  /\ fallback_slot f2 = Some ("run1_S1_L001", "R2").
Proof. vm_compute. repeat split. Qed.

(** C3, as stated, fails: a second file whose match extracts the sample
    [s] and the key [R1] replaces the file that the slot held. *)
Lemma C3_counterexample :
  ~ (forall p st f name key g (r : reads),
       f ∉ matched_files st ->
       structured_slot p f = Some (name, key) ->
       Dict.get name (samples st) = Some r ->
       r !! key = Some (Some g) ->
       exists r' : reads,
         Dict.get name (samples (structured_step p st f)) = Some r'
         /\ r' !! key = Some (Some g)).
Proof.
  intros H.
  destruct (H pat_simple
              (structured_step pat_simple init "/data/a/s_R1.fastq.gz")
              "/data/b/s_R1.fastq.gz" "s" "R1" "/data/a/s_R1.fastq.gz"
              (<["R1" := Some "/data/a/s_R1.fastq.gz"]> empty_reads))
    as (r' & Hg & Hr).
  - apply (bool_decide_unpack _). vm_compute. exact I.
  - vm_compute. reflexivity.
  - vm_compute. reflexivity.
  - vm_compute. reflexivity.
  - vm_compute in Hg. injection Hg as <-. vm_compute in Hr. discriminate Hr.
Qed.

(** C3, amended. Last match wins: when a pattern matches a file that is
    not yet in [matched_files], the file is put into the slot that the
    match extracts, whatever the slot held, and becomes matched; the only
    matches that are ignored are those of files already matched. *)
Theorem C3_last_match_wins p st f name key :
  f ∉ matched_files st ->
  structured_slot p f = Some (name, key) ->
  let st' := structured_step p st f in
  (exists r : reads, Dict.get name (samples st') = Some r /\ r !! key = Some (Some f))
  /\ f ∈ matched_files st'.
Proof.
  intros Hf Hs. simpl. rewrite structured_step_step. unfold step.
  destruct (decide _) as [|_]; [done|]. rewrite Hs. simpl. split.
  - eexists. split; [apply dict_get_set_eq | apply lookup_insert_eq].
  - apply elem_of_union. left. by apply elem_of_singleton.
Qed.

Lemma C3_last_match_wins_witness :
  let st' := structured_step pat_simple
               (structured_step pat_simple init "/data/a/s_R1.fastq.gz")
               "/data/b/s_R1.fastq.gz" in
  (exists r : reads, Dict.get "s" (samples st') = Some r
                     /\ r !! "R1" = Some (Some "/data/b/s_R1.fastq.gz"))
  /\ "/data/b/s_R1.fastq.gz" ∈ matched_files st'.
Proof.
  apply (C3_last_match_wins pat_simple
           (structured_step pat_simple init "/data/a/s_R1.fastq.gz")
           "/data/b/s_R1.fastq.gz" "s" "R1").
  - apply (bool_decide_unpack _). vm_compute. exact I.
  - vm_compute. reflexivity.
Defined.

Lemma NoDup_map_inj {A B} (g : A -> B) (l : list A) x y :
  NoDup (map g l) -> x ∈ l -> y ∈ l -> g x = g y -> x = y.
Proof.
  induction l as [|a l IH]; simpl; intros Hnd Hx Hy Hg.
  - by apply elem_of_nil in Hx.
  - apply NoDup_cons in Hnd as [Ha Hnd].
    apply elem_of_cons in Hx as [->|Hx], Hy as [->|Hy]; try done.
    + exfalso. apply Ha. rewrite Hg. apply list_elem_of_fmap. by exists y.
    + exfalso. apply Ha. rewrite <- Hg. apply list_elem_of_fmap. by exists x.
    + by apply IH.
Qed.

Lemma step_matched c st f : f ∈ matched_files st -> step c st f = st.
Proof. intros Hf. unfold step. by destruct (decide _). Qed.

(** C4. In a run over any list of candidate files no file is recorded
    twice, no file ends up in two slots, and an iteration of either loop
    on a file of [matched_files] changes nothing. *)
Theorem C4_no_double_assignment l :
  let st := resolve l in
  NoDup (map ev_file (history st))
  /\ (forall n1 k1 n2 k2 (r1 r2 : reads) f,
        Dict.get n1 (samples st) = Some r1 -> r1 !! k1 = Some (Some f) ->
        Dict.get n2 (samples st) = Some r2 -> r2 !! k2 = Some (Some f) ->
        n1 = n2 /\ k1 = k2)
  /\ (forall st0 f, f ∈ matched_files st0 ->
        (forall p, structured_step p st0 f = st0) /\ fallback_step st0 f = st0).
Proof.
  simpl. pose proof (pi_inv _ _ _ (resolve_inv l)) as HI. split_and!.
  - apply HI.
  - intros n1 k1 n2 k2 r1 r2 f Hg1 Hr1 Hg2 Hr2.
    pose proof (slot_event _ _ _ _ _ HI Hg1 Hr1) as He1.
    pose proof (slot_event _ _ _ _ _ HI Hg2 Hr2) as He2.
    assert (Heq : Event f n1 k1 = Event f n2 k2).
    { eapply NoDup_map_inj; [apply (inv_nodup _ HI) | done | done | done]. }
    by injection Heq.
  - intros st0 f Hf. split.
    + intros p. rewrite structured_step_step. by apply step_matched.
    + rewrite fallback_step_step. by apply step_matched.
Qed.

Lemma C4_no_double_assignment_witness :
  NoDup (map ev_file (history (resolve (fastq_files "/data" illumina_dir))))
  /\ ("run1" = "run1" /\ "R1" = "R1")
  /\ fallback_step (resolve (fastq_files "/data" illumina_dir))
                   "/data/run1_S1_L001_R1_001.fastq.gz"
     = resolve (fastq_files "/data" illumina_dir).
Proof.
  destruct (C4_no_double_assignment (fastq_files "/data" illumina_dir))
    as (Hnd & Hslot & Hskip).
  split; [|split].
  - exact Hnd.
  - apply (Hslot "run1" "R1" "run1" "R1"
             (both_reads "/data/run1_S1_L001_R1_001.fastq.gz"
                         "/data/run1_S1_L001_R2_001.fastq.gz")
             (both_reads "/data/run1_S1_L001_R1_001.fastq.gz"
                         "/data/run1_S1_L001_R2_001.fastq.gz")
             "/data/run1_S1_L001_R1_001.fastq.gz");
      vm_compute; reflexivity.
  - apply (Hskip (resolve (fastq_files "/data" illumina_dir))).
    apply (bool_decide_unpack _). vm_compute. exact I.
Defined.

(** ** What a run records *)

Lemma history_char l e :
  e ∈ history (resolve l)
  <-> ev_file e ∈ l /\ slot_of (ev_file e) = Some (ev_sample e, ev_key e).
Proof.
  pose proof (resolve_inv l) as [HI Hs Hc]. split; [apply Hs|].
  intros [Hl Hsl].
  assert (Hm : ev_file e ∈ matched_files (resolve l)).
  { apply Hc; [done|]. fold (slot_of (ev_file e)). by rewrite Hsl. }
  apply (inv_matched _ HI), list_elem_of_fmap in Hm as (e' & Hf & He').
  destruct (Hs e' He') as [_ Hsl']. fold (slot_of (ev_file e')) in Hsl'.
  rewrite <- Hf, Hsl in Hsl'. injection Hsl' as Hn Hk.
  replace e with e'; [done|].
  rewrite (event_eta e), (event_eta e'). by rewrite Hn, Hk, Hf.
Qed.

Section Permuted.
Variables l1 l2 : list string.
Hypothesis Hperm : l1 ≡ₚ l2.
Hypothesis Huniq : forall f g, f ∈ l1 -> g ∈ l1 ->
  is_Some (slot_of f) -> slot_of f = slot_of g -> f = g.

Lemma history_perm e : e ∈ history (resolve l1) <-> e ∈ history (resolve l2).
Proof. rewrite !history_char. by rewrite Hperm. Qed.

Lemma latest_perm name key :
  latest (history (resolve l1)) name key = latest (history (resolve l2)) name key.
Proof.
  destruct (latest (history (resolve l1)) name key) as [f|] eqn:E1;
    destruct (latest (history (resolve l2)) name key) as [f'|] eqn:E2; try done.
  - apply latest_Some in E1, E2. apply history_perm in E2.
    apply history_char in E1 as [Hf Hs], E2 as [Hf' Hs']. simpl in *.
    f_equal. apply Huniq; [done | done | by rewrite Hs | by rewrite Hs, Hs'].
  - apply latest_Some, history_perm in E1.
    by apply (latest_None _ _ _ f) in E2.
  - apply latest_Some, history_perm in E2.
    by apply (latest_None _ _ _ f') in E1.
Qed.

Lemma reads_of_perm name :
  reads_of (history (resolve l1)) name = reads_of (history (resolve l2)) name.
Proof.
  destruct (reads_of (history (resolve l1)) name) as [r1|] eqn:E1;
    destruct (reads_of (history (resolve l2)) name) as [r2|] eqn:E2; try done.
  - f_equal. apply map_eq. intros key.
    rewrite (reads_of_lookup _ _ _ key E1), (reads_of_lookup _ _ _ key E2).
    by rewrite latest_perm.
  - exfalso. assert (H1 : reads_of (history (resolve l1)) name = None).
    { apply reads_of_None. intros e He%history_perm.
      by apply (proj1 (reads_of_None _ _) E2). }
    by rewrite H1 in E1.
  - exfalso. assert (H2 : reads_of (history (resolve l2)) name = None).
    { apply reads_of_None. intros e He%history_perm.
      by apply (proj1 (reads_of_None _ _) E1). }
    by rewrite H2 in E2.
Qed.

Lemma samples_perm name :
  Dict.get name (samples (resolve l1)) = Dict.get name (samples (resolve l2)).
Proof.
  rewrite (inv_samples _ (pi_inv _ _ _ (resolve_inv l1))).
  rewrite (inv_samples _ (pi_inv _ _ _ (resolve_inv l2))).
  apply reads_of_perm.
Qed.

End Permuted.

(** C2, as stated, fails: the two lanes of sample [s] listed in the two
    orders give two different R1 files for [s]. *)
Lemma C2_counterexample :
  ~ (forall l1 l2, l1 ≡ₚ l2 ->
       forall name, Dict.get name (pair_files l1).1 = Dict.get name (pair_files l2).1).
Proof.
  intros H.
  specialize (H (fastq_files "/data" lanes_dir) (fastq_files "/data" lanes_dir_rev)).
  assert (Hp : fastq_files "/data" lanes_dir ≡ₚ fastq_files "/data" lanes_dir_rev).
  { vm_compute. apply perm_skip, perm_swap. }
  specialize (H Hp "s"). vm_compute in H. discriminate H.
Qed.

(** C2, amended. Two enumeration orders of the same candidate files give
    the same mapping (the same sample names with the same R1 and R2 files)
    provided no two distinct candidates resolve to the same slot, that
    is, to the same sample name and the same mate. *)
Theorem C2_order_independent_unique_slots l1 l2 :
  l1 ≡ₚ l2 ->
  (forall f g, f ∈ l1 -> g ∈ l1 ->
     is_Some (slot_of f) -> slot_of f = slot_of g -> f = g) ->
  forall name, Dict.get name (pair_files l1).1 = Dict.get name (pair_files l2).1.
Proof.
  intros Hperm Huniq name. rewrite !valid_get.
  by rewrite (samples_perm l1 l2 Hperm Huniq).
Qed.

Lemma C2_order_independent_unique_slots_witness :
  Dict.get "run1" (pair_files (fastq_files "/data" illumina_dir)).1
  = Dict.get "run1" (pair_files (fastq_files "/data" illumina_dir_rev)).1.
Proof.
  apply C2_order_independent_unique_slots.
  - vm_compute. apply perm_swap.
  - intros f g Hf%list_elem_of_In Hg%list_elem_of_In _ Heq.
    vm_compute in Hf, Hg.
    destruct Hf as [<-|[<-|[]]], Hg as [<-|[<-|[]]];
      first [reflexivity | vm_compute in Heq; discriminate Heq].
Defined.

(** ** Diagnostics *)

Lemma contains_unfold sub s :
  Str.contains sub s
  = if Str.startswith sub s then true
    else match s with
         | EmptyString => false
         | String _ s' => Str.contains sub s'
         end.
Proof. by destruct s. Qed.

Lemma startswith_app p s : Str.startswith p (p ++ s)%string = true.
Proof. induction p as [|a p IH]; simpl; [done|]. by rewrite Ascii.eqb_refl. Qed.

Lemma contains_app a sub b : Str.contains sub (a ++ sub ++ b)%string = true.
Proof.
  induction a as [|c a IH].
  - change (Str.contains sub (sub ++ b)%string = true).
    by rewrite contains_unfold, startswith_app.
  - change (Str.contains sub (String c (a ++ sub ++ b)%string) = true).
    rewrite contains_unfold. destruct (Str.startswith _ _); [done | exact IH].
Qed.

Lemma both_reads_lookup f1 f2 key g :
  both_reads f1 f2 !! key = Some (Some g) -> g = f1 \/ g = f2.
Proof.
  unfold both_reads. rewrite !lookup_insert.
  repeat case_decide; intros [=]; auto.
Qed.

(** C5, as stated, fails: the first lane of sample [s] is recorded, is
    then replaced by the second lane, is in no entry of the result, and
    nothing at all is printed. *)
Lemma C5_counterexample :
  ~ (forall l e,
       e ∈ history (resolve l) ->
       (forall n (r : reads) k,
          Dict.get n (pair_files l).1 = Some r -> r !! k <> Some (Some (ev_file e))) ->
       (pair_files l).2 <> []).
Proof.
  intros H.
  apply (H (fastq_files "/data" lanes_dir) (Event "/data/a/s_R1.fastq.gz" "s" "R1")).
  - apply list_elem_of_In. vm_compute. tauto.
  - assert (Hv : (pair_files (fastq_files "/data" lanes_dir)).1
                 = [("s", both_reads "/data/b/s_R1.fastq.gz" "/data/s_R2.fastq.gz")])
      by (vm_compute; reflexivity).
    rewrite Hv. simpl. intros n r k Hg Hr.
    destruct (String.eqb n "s"); [|done]. injection Hg as <-.
    apply both_reads_lookup in Hr as [Hr|Hr]; discriminate Hr.
  - vm_compute. reflexivity.
Qed.

(** C5, amended. Every file that holds a slot when the two passes end
    either is in the result, in that slot of its sample, or has its
    sample named by a printed warning. *)
Theorem C5_slot_holders_accounted l name (r : reads) key f :
  Dict.get name (samples (resolve l)) = Some r ->
  r !! key = Some (Some f) ->
  Dict.get name (pair_files l).1 = Some r \/ warning name ∈ (pair_files l).2.
Proof.
  intros Hg Hr. rewrite valid_get, Hg.
  destruct (complete (name, r)) eqn:E; [by left|].
  right. by apply warning_elem with r.
Qed.

Lemma C5_slot_holders_accounted_witness :
  Dict.get "sampleA" (pair_files only_R1).1
  = Some (<["R1" := Some "/data/sampleA_R1.fastq.gz"]> empty_reads)
  \/ warning "sampleA" ∈ (pair_files only_R1).2.
Proof.
  apply (C5_slot_holders_accounted only_R1 "sampleA" _ "R1" "/data/sampleA_R1.fastq.gz");
    vm_compute; reflexivity.
Defined.

(** C6, as stated, fails: a sample that lacks mate 2 and a sample that
    lacks mate 1 get the same warning, so no reading of the printed text
    tells which mate is missing. *)
Lemma C6_counterexample :
  ~ (exists missing : string -> string,
       forall l name (r : reads),
         Dict.get name (samples (resolve l)) = Some r ->
         is_set "R1" r <> is_set "R2" r ->
         exists w, w ∈ (pair_files l).2
                   /\ Str.contains name w = true
                   /\ is_set (missing w) r = false
                   /\ (missing w = "R1" \/ missing w = "R2")).
Proof.
  intros [missing H].
  destruct (H only_R1 "sampleA" (<["R1" := Some "/data/sampleA_R1.fastq.gz"]> empty_reads))
    as (w1 & Hw1 & _ & Hm1 & Hk1); [vm_compute; reflexivity | vm_compute; discriminate |].
  destruct (H only_R2 "sampleA" (<["R2" := Some "/data/sampleA_R2.fastq.gz"]> empty_reads))
    as (w2 & Hw2 & _ & Hm2 & Hk2); [vm_compute; reflexivity | vm_compute; discriminate |].
  assert (E1 : (pair_files only_R1).2 = [warning "sampleA"]) by (vm_compute; reflexivity).
  assert (E2 : (pair_files only_R2).2 = [warning "sampleA"]) by (vm_compute; reflexivity).
  rewrite E1 in Hw1. rewrite E2 in Hw2.
  apply list_elem_of_singleton in Hw1, Hw2. subst w1 w2.
  destruct Hk1 as [Hk|Hk]; rewrite Hk in Hm1, Hm2;
    vm_compute in Hm1, Hm2; discriminate.
Qed.

(** C6, amended. For every sample record with exactly one mate slot
    filled, the resolver prints the warning of that sample, whose text
    contains the sample name and is the same whichever mate is missing,
    and the record is not in the result. *)
Theorem C6_incomplete_sample_warned l name (r : reads) :
  Dict.get name (samples (resolve l)) = Some r ->
  is_set "R1" r <> is_set "R2" r ->
  warning name ∈ (pair_files l).2
  /\ Str.contains name (warning name) = true
  /\ Dict.get name (pair_files l).1 = None.
Proof.
  intros Hg Hne.
  assert (E : complete (name, r) = false).
  { unfold complete. simpl. by destruct (is_set "R1" r), (is_set "R2" r). }
  split_and!.
  - by apply warning_elem with r.
  - apply contains_app.
  - by rewrite valid_get, Hg, E.
Qed.

Lemma C6_incomplete_sample_warned_witness :
  warning "sampleA" ∈ (pair_files only_R1).2
  /\ Str.contains "sampleA" (warning "sampleA") = true
  /\ Dict.get "sampleA" (pair_files only_R1).1 = None.
Proof.
  apply (C6_incomplete_sample_warned only_R1 "sampleA"
           (<["R1" := Some "/data/sampleA_R1.fastq.gz"]> empty_reads)).
  - vm_compute. reflexivity.
  - vm_compute. discriminate.
Defined.

(** ** The directory scan *)





(** For a path without pattern characters the globs list the directory
    of that path and no other. *)
Lemma globbed_plain data_dir k :
  has_magic data_dir = false ->
  globbed_files data_dir k = fastq_files data_dir (at_path k).
Proof.
  intros H. unfold globbed_files, glob_files, glob_subfiles, scanned, fastq_files.
  rewrite H. cbn [flat_map fst snd]. by rewrite !app_nil_r.
Qed.






(** The validation with prints that fail, against the validation. *)
Lemma validate_io_None can_print items : forall v out,
  (validate_io can_print items v out).2 = None
  <-> exists n r, (n, r) ∈ items /\ complete (n, r) = false
                  /\ can_print (warning n) = false.
Proof.
  induction items as [|[n r] items IH]; intros v out; cbn [validate_io].
  - split; [done|]. intros (n & r & Hin & _). by apply elem_of_nil in Hin.
  - change (is_set "R1" r && is_set "R2" r)%bool with (complete (n, r)).
    destruct (complete (n, r)) eqn:Ec.
    + rewrite IH. split.
      * intros (n' & r' & Hin & ?). exists n', r'. split; [by right | done].
      * intros (n' & r' & [[= -> ->]|Hin]%elem_of_cons & Hc & Hw); [congruence|].
        by exists n', r'.
    + destruct (can_print (warning n)) eqn:Ew.
      * rewrite IH. split.
        -- intros (n' & r' & Hin & ?). exists n', r'. split; [by right | done].
        -- intros (n' & r' & [[= -> ->]|Hin]%elem_of_cons & Hc & Hw); [congruence|].
           by exists n', r'.
      * split; [|done]. intros _. exists n, r. split; [left | done].
Qed.

Lemma validate_io_Some can_print items : forall v out v',
  (validate_io can_print items v out).2 = Some v' ->
  validate_io can_print items v out
  = ((fold_left validate_step items (v, out)).2,
     Some (fold_left validate_step items (v, out)).1).
Proof.
  induction items as [|[n r] items IH]; intros v out v'; cbn [validate_io fold_left].
  - done.
  - unfold validate_step at 2 4. cbn [fst snd].
    destruct (is_set "R1" r && is_set "R2" r)%bool.
    + apply IH.
    + destruct (can_print (warning n)); [apply IH | done].
Qed.

Lemma find_io_raises can_print data_dir k :
  (find_fastq_pairs_io can_print data_dir k).2 = None
  <-> exists name, warning name ∈ (pair_files (globbed_files data_dir k)).2
                   /\ can_print (warning name) = false.
Proof.
  unfold find_fastq_pairs_io. rewrite validate_io_None, pair_files_eq. cbn [snd].
  split.
  - intros (n & r & Hin & Hc & Hw). exists n. split; [|done].
    apply list_elem_of_fmap. exists (n, r). split; [done|].
    apply list_elem_of_In, filter_In. split; [by apply list_elem_of_In | by rewrite Hc].
  - intros (name & ([n r] & Hw & Hin)%list_elem_of_fmap & Hp). cbn [fst] in Hw.
    apply list_elem_of_In, filter_In in Hin as [Hin Hc]. apply list_elem_of_In in Hin.
    exists n, r. split_and!; [done | by apply negb_true_iff | by rewrite <- Hw].
Qed.

Lemma find_io_returns can_print data_dir k valid :
  (find_fastq_pairs_io can_print data_dir k).2 = Some valid ->
  find_fastq_pairs_io can_print data_dir k
  = ((pair_files (globbed_files data_dir k)).2,
     Some (pair_files (globbed_files data_dir k)).1).
Proof. unfold find_fastq_pairs_io, pair_files, validate. apply validate_io_Some. Qed.

(** For a path without pattern characters and a standard output that
    takes every line, the function in full returns and prints what
    [find_fastq_pairs] gives. *)
Lemma find_io_plain can_print data_dir k :
  has_magic data_dir = false ->
  (forall line, can_print line = true) ->
  find_fastq_pairs_io can_print data_dir k
  = ((find_fastq_pairs data_dir (at_path k)).2,
     Some (find_fastq_pairs data_dir (at_path k)).1).
Proof.
  intros Hm Hp. unfold find_fastq_pairs. rewrite <- globbed_plain by done.
  destruct (find_fastq_pairs_io can_print data_dir k).2 as [v|] eqn:E.
  - by apply find_io_returns with v.
  - apply find_io_raises in E as (name & _ & Hw). by rewrite Hp in Hw.
Qed.




(** ** The fallback heuristic *)

Lemma startswith_app_l p q : forall s,
  Str.startswith (p ++ q)%string s = true -> Str.startswith p s = true.
Proof.
  induction p as [|a p IH]; intros s; [done|].
  change (String a p ++ q)%string with (String a (p ++ q)%string).
  destruct s as [|b s]; simpl; [done|].
  destruct (Ascii.eqb a b); [apply IH | done].
Qed.

Lemma contains_app_l p q s :
  Str.contains (p ++ q)%string s = true -> Str.contains p s = true.
Proof.
  induction s as [|c s IH]; rewrite !(contains_unfold _ (String _ _)) || rewrite !(contains_unfold _ "").
  - destruct (Str.startswith (p ++ q)%string "") eqn:E; [|done].
    by rewrite (startswith_app_l _ _ _ E).
  - destruct (Str.startswith (p ++ q)%string (String c s)) eqn:E.
    + by rewrite (startswith_app_l _ _ _ E).
    + intros H. rewrite (IH H). by destruct (Str.startswith p _).
Qed.

Lemma fallback_token_redundant tok b :
  (Str.contains tok b || Str.contains "_1" b || Str.contains (tok ++ "_")%string b)%bool
  = (Str.contains tok b || Str.contains "_1" b)%bool
  /\ (Str.contains tok b || Str.contains "_2" b || Str.contains (tok ++ "_")%string b)%bool
    = (Str.contains tok b || Str.contains "_2" b)%bool.
Proof.
  pose proof (contains_app_l tok "_" b) as H.
  destruct (Str.contains (tok ++ "_")%string b); [rewrite H by done|];
    by rewrite ?orb_true_l, ?orb_false_r.
Qed.

Lemma slot_of_unstructured f :
  first_slot (map structured_slot patterns) f = None ->
  slot_of f = fallback_slot f.
Proof.
  intros H. unfold slot_of, classifiers. rewrite first_slot_app, H. simpl.
  by destruct (fallback_slot f).
Qed.

Lemma record_effect name key f st :
  Dict.get name (samples (record name key f st))
  = Some (<[key := Some f]> (default empty_reads (Dict.get name (samples st))))
  /\ (forall n', n' <> name ->
        Dict.get n' (samples (record name key f st)) = Dict.get n' (samples st))
  /\ f ∈ matched_files (record name key f st).
Proof.
  cbn [record samples matched_files]. split_and!.
  - rewrite dict_get_set_eq. f_equal. f_equal. unfold Dict.mem.
    destruct (Dict.get name (samples st)) eqn:G.
    + by rewrite G.
    + by rewrite dict_get_set_eq.
  - intros n' Hn. rewrite dict_get_set_ne by done.
    destruct (Dict.mem _ _); [done|]. by rewrite dict_get_set_ne.
  - apply elem_of_union. left. by apply elem_of_singleton.
Qed.

(** C10. In the fallback pass the mate-1 tests come first.  For a file
    whose basename holds a mate-1 token and a mate-2 token, the
    iteration of the fallback loop on it, when it is unmatched, puts it
    into the R1 slot of its sample and marks it matched, and leaves the
    R2 slot of that sample and every other sample as they were.  In a
    run where no structured pattern matches the file, it is the R2 entry
    of no sample at the end, and the R1 slot of its sample holds a
    candidate that resolves to that slot: the file itself when no other
    candidate does.  The tests for _R1_ and _R2_ never decide: _R1_
    occurs only where _R1 does, and _R2_ only where _R2 does. *)
Theorem C10_fallback_mate1_first f :
  let b := Str.basename f in
  (Str.contains "_R1" b || Str.contains "_1" b || Str.contains "_R1_" b)%bool = true ->
  (Str.contains "_R2" b || Str.contains "_2" b || Str.contains "_R2_" b)%bool = true ->
  (exists name,
     (forall st, f ∉ matched_files st ->
        (exists r : reads,
           Dict.get name (samples (fallback_step st f)) = Some r
           /\ r !! "R1" = Some (Some f)
           /\ r !! "R2" = default empty_reads (Dict.get name (samples st)) !! "R2")
        /\ (forall n', n' <> name ->
              Dict.get n' (samples (fallback_step st f)) = Dict.get n' (samples st))
        /\ f ∈ matched_files (fallback_step st f))
     /\ (forall l, f ∈ l ->
           first_slot (map structured_slot patterns) f = None ->
           (forall n (r : reads), Dict.get n (samples (resolve l)) = Some r ->
              r !! "R2" <> Some (Some f))
           /\ exists (r : reads) g,
                Dict.get name (samples (resolve l)) = Some r
                /\ r !! "R1" = Some (Some g)
                /\ g ∈ l /\ slot_of g = Some (name, "R1")
                /\ ((forall h, h ∈ l -> slot_of h = Some (name, "R1") -> h = f) -> g = f)))
  /\ (forall b' : string,
        (Str.contains "_R1_" b' = true -> Str.contains "_R1" b' = true)
        /\ (Str.contains "_R2_" b' = true -> Str.contains "_R2" b' = true)
        /\ (Str.contains "_R1" b' || Str.contains "_1" b' || Str.contains "_R1_" b')%bool
           = (Str.contains "_R1" b' || Str.contains "_1" b')%bool
        /\ (Str.contains "_R2" b' || Str.contains "_2" b' || Str.contains "_R2_" b')%bool
           = (Str.contains "_R2" b' || Str.contains "_2" b')%bool).
Proof.
  intros b H1 H2.
  assert (Hfb : exists name, fallback_slot f = Some (name, "R1")).
  { unfold fallback_slot. fold b. rewrite H1. eauto. }
  destruct Hfb as [name Hfb].
  split.
  - exists name. split.
    + intros st Hf.
      assert (E : fallback_step st f = record name "R1" f st).
      { rewrite fallback_step_step. unfold step.
        destruct (decide _) as [|_]; [done|]. by rewrite Hfb. }
      rewrite E. destruct (record_effect name "R1" f st) as (Hg & Ho & Hm).
      split; [|by split]. eexists. split; [exact Hg|]. split.
      * apply lookup_insert_eq.
      * by rewrite lookup_insert_ne.
    + intros l Hl Hns.
      assert (Hso : slot_of f = Some (name, "R1")) by (by rewrite slot_of_unstructured).
      split.
      * intros n r Hg Hr.
        pose proof (slot_event _ _ _ _ _ (pi_inv _ _ _ (resolve_inv l)) Hg Hr) as He.
        apply history_char in He as [_ He]. simpl in He. rewrite Hso in He.
        discriminate He.
      * assert (He : Event f name "R1" ∈ history (resolve l)) by (by apply history_char).
        destruct (latest (history (resolve l)) name "R1") as [g|] eqn:El;
          [|by apply (latest_None _ _ _ f) in El].
        pose proof (latest_Some _ _ _ _ El) as [Hg Hgs]%history_char.
        cbn [ev_file ev_sample ev_key] in Hg, Hgs.
        pose proof (inv_samples _ (pi_inv _ _ _ (resolve_inv l)) name) as Hsm.
        destruct (reads_of (history (resolve l)) name) as [r|] eqn:Er.
        -- exists r, g. split_and!; [done | | done | done | by intros Hu; apply Hu].
           by rewrite (reads_of_lookup _ _ _ "R1" Er), El.
        -- exfalso. by apply (proj1 (reads_of_None _ _) Er (Event f name "R1")).
  - intros b'. split_and!.
    + apply (contains_app_l "_R1" "_").
    + apply (contains_app_l "_R2" "_").
    + apply (fallback_token_redundant "_R1" b').
    + apply (fallback_token_redundant "_R2" b').
Qed.

Lemma C10_fallback_mate1_first_witness :
  exists name (r : reads),
    Dict.get name (samples (fallback_step init two_tokens)) = Some r
    /\ r !! "R1" = Some (Some two_tokens)
    /\ two_tokens ∈ matched_files (fallback_step init two_tokens).
Proof.
  destruct (C10_fallback_mate1_first two_tokens) as ((name & Hstep & _) & _).
  - vm_compute. reflexivity.
  - vm_compute. reflexivity.
  - destruct (Hstep init) as ((r & Hg & Hr & _) & _ & Hm).
    + apply (bool_decide_unpack _). vm_compute. exact I.
    + by exists name, r.
Defined.

(** ** The groups that the structured patterns extract *)

Lemma plus_loop_inv {A} a : forall s (k : string -> option A) res,
  Re.plus_loop a s k = Some res -> exists s', k s' = Some res.
Proof.
  induction s as [|c s IH]; intros k res; simpl; [done|].
  destruct (Re.cmatch a c); [|done].
  destruct (Re.plus_loop a s k) as [r|] eqn:E.
  - intros [= <-]. by apply IH in E.
  - eauto.
Qed.

Lemma take_one c s : Str.take (String.length (String c s) - String.length s) (String c s)
                     = String c "".
Proof.
  replace (String.length (String c s) - String.length s)%nat with 1%nat; [done|].
  simpl. lia.
Qed.

(** Through a match of [r] a group that is set stays set, a group that
    [r] sets is set, and the group [n] holds one character of [a] if it
    did before. *)
Lemma go_groups n a r : forall s caps k res,
  group_of n a r ->
  Re.go r s caps k = Some res ->
  exists s' caps',
    k s' caps' = Some res
    /\ (forall m, is_Some (caps m) -> is_Some (caps' m))
    /\ (forall m, sets m r = true -> is_Some (caps' m))
    /\ ((forall v, caps n = Some v -> exists c, v = String c "" /\ Re.cmatch a c = true) ->
        (forall v, caps' n = Some v -> exists c, v = String c "" /\ Re.cmatch a c = true)).
Proof.
  induction r as [b|b|r IH|r1 IH1 r2 IH2|m r IH| |]; intros s caps k res Hg; simpl.
  - destruct s as [|c s]; [done|]. destruct (Re.cmatch b c); [|done].
    intros H. exists s, caps. by split_and!.
  - intros (s' & H)%plus_loop_inv. exists s', caps. by split_and!.
  - destruct (Re.go r s caps k) as [res'|] eqn:E.
    + intros [= <-]. destruct (IH _ _ _ _ Hg E) as (s' & caps' & ? & ? & ? & ?).
      exists s', caps'. by split_and!.
    + intros H. exists s, caps. by split_and!.
  - destruct Hg as [Hg1 Hg2]. intros H.
    destruct (IH1 _ _ _ _ Hg1 H) as (s1 & caps1 & H' & Hk1 & Hs1 & Hv1).
    destruct (IH2 _ _ _ _ Hg2 H') as (s2 & caps2 & H'' & Hk2 & Hs2 & Hv2).
    exists s2, caps2. split_and!; [done | by auto | | by auto].
    intros m' [?|?]%orb_true_iff; auto.
  - simpl in Hg. intros H. destruct (Nat.eqb n m) eqn:Enm.
    + apply Nat.eqb_eq in Enm. subst m r. simpl in H.
      destruct s as [|c s]; [done|]. destruct (Re.cmatch a c) eqn:Ec; [|done].
      rewrite take_one in H. eexists _, _. split; [exact H|].
      unfold Re.set_group. split_and!.
      * intros m' Hm'. by destruct (Nat.eqb m' n).
      * intros m' Hm'. rewrite orb_false_r in Hm'. by rewrite Hm'.
      * intros _ v. rewrite Nat.eqb_refl. intros [= <-]. eauto.
    + destruct (IH _ _ _ _ Hg H) as (s' & caps' & H' & Hk & Hs & Hv).
      eexists _, _. split; [exact H'|]. unfold Re.set_group. split_and!.
      * intros m' Hm'. destruct (Nat.eqb m' m); [done | by apply Hk].
      * intros m' [Hm'|Hm']%orb_true_iff; [by rewrite Hm'|].
        destruct (Nat.eqb m' m); [done | by apply Hs].
      * intros Hc v. rewrite Enm. by apply Hv.
  - destruct (_ || _)%bool; [|done]. intros H. exists s, caps. by split_and!.
  - intros H. exists s, caps. by split_and!.
Qed.

Lemma one_of_12 c : Re.cmatch (Re.OneOf "12") c = true -> c = "1"%char \/ c = "2"%char.
Proof.
  simpl. destruct (Ascii.eqb c "1") eqn:E1; [apply Ascii.eqb_eq in E1; auto|].
  destruct (Ascii.eqb c "2") eqn:E2; [apply Ascii.eqb_eq in E2; auto | done].
Qed.

Lemma patterns_groups p :
  p ∈ patterns ->
  sets 1 p = true /\ sets 2 p = true /\ group_of 2 (Re.OneOf "12") p.
Proof.
  intros Hp%list_elem_of_In. vm_compute in Hp.
  destruct Hp as [<-|[<-|[<-|[<-|[<-|[]]]]]]; vm_compute; repeat split.
Qed.

(** A match of one of the five patterns has its groups 1 and 2, and its
    group 2 is the text 1 or the text 2: the key of a structured slot is
    R1 or R2. *)
Lemma structured_slot_total p f :
  p ∈ patterns ->
  forall m, Re.re_match p (Str.basename f) = Some m ->
  exists name key, structured_slot p f = Some (name, key)
                   /\ m 1%nat = Some name /\ (key = "R1" \/ key = "R2").
Proof.
  intros (H1 & H2 & Hg)%patterns_groups m Hm.
  unfold structured_slot. rewrite Hm. unfold Re.re_match in Hm.
  destruct (go_groups 2 (Re.OneOf "12") p _ _ _ _ Hg Hm) as (s' & m' & [= ->] & _ & Hs & Hv).
  destruct (Hs 1%nat H1) as [name ->], (Hs 2%nat H2) as [rn Hrn]. rewrite Hrn.
  exists name, ("R" ++ rn)%string. split_and!; [done | done |].
  destruct (Hv ltac:(done) rn Hrn) as (c & -> & [->| ->]%one_of_12); auto.
Qed.

(** * Further properties of the resolver *)

(** ** Which files are recorded, and where *)


Lemma matched_char l f :
  f ∈ matched_files (resolve l) <-> f ∈ l /\ is_Some (slot_of f).
Proof.
  pose proof (resolve_inv l) as [HI Hs Hc]. split.
  - intros (e & Hf & He)%(inv_matched _ HI)%list_elem_of_fmap. subst f.
    destruct (Hs e He) as [Hl Hsl]. split; [done|].
    unfold slot_of. by rewrite Hsl.
  - intros [Hl [sl Hsl]]. apply Hc; [done|]. fold (slot_of f). by rewrite Hsl.
Qed.

(** X2. After a run [matched_files] holds exactly the candidates that
    some classifier accepts, and every file in a slot of [samples] is one
    of them: a candidate that matches no pattern and carries no mate
    token is in no slot. *)
Theorem X2_matched_files_are_accepted_candidates l :
  (forall f, f ∈ matched_files (resolve l) <-> f ∈ l /\ is_Some (slot_of f))
  /\ (forall name (r : reads) key f,
        Dict.get name (samples (resolve l)) = Some r ->
        r !! key = Some (Some f) ->
        f ∈ l /\ slot_of f = Some (name, key)).
Proof.
  split; [apply matched_char|].
  intros name r key f Hg Hr.
  pose proof (slot_event _ _ _ _ _ (pi_inv _ _ _ (resolve_inv l)) Hg Hr) as He.
  by apply history_char in He.
Qed.

Lemma X2_matched_files_are_accepted_candidates_witness :
  "/data/run1_S1_L001_R1_001.fastq.gz" ∈ fastq_files "/data" illumina_dir
  /\ slot_of "/data/run1_S1_L001_R1_001.fastq.gz" = Some ("run1", "R1").
Proof.
  destruct (X2_matched_files_are_accepted_candidates (fastq_files "/data" illumina_dir))
    as [_ H].
  apply (H "run1" (both_reads "/data/run1_S1_L001_R1_001.fastq.gz"
                             "/data/run1_S1_L001_R2_001.fastq.gz"));
    vm_compute; reflexivity.
Defined.

(** ** The keys of a sample record *)

Lemma first_slot_elem cs f sl :
  first_slot cs f = Some sl -> exists c, c ∈ cs /\ c f = Some sl.
Proof.
  induction cs as [|c cs IH]; simpl; [done|].
  destruct (c f) as [sl'|] eqn:E.
  - intros [= <-]. exists c. split; [left | done].
  - intros (c' & ? & ?)%IH. exists c'. split; [by right | done].
Qed.

Lemma fallback_slot_key f n k : fallback_slot f = Some (n, k) -> k = "R1" \/ k = "R2".
Proof.
  unfold fallback_slot. destruct (_ || _ || _)%bool.
  - intros [= _ <-]. by left.
  - destruct (_ || _ || _)%bool; [|done]. intros [= _ <-]. by right.
Qed.

Lemma slot_of_key f n k : slot_of f = Some (n, k) -> k = "R1" \/ k = "R2".
Proof.
  intros (c & Hc & Hcf)%first_slot_elem. unfold classifiers in Hc.
  apply elem_of_app in Hc as [(p & -> & Hp)%list_elem_of_fmap | ->%list_elem_of_singleton].
  - pose proof Hcf as Hcf'. unfold structured_slot in Hcf'.
    destruct (Re.re_match p (Str.basename f)) as [m|] eqn:Em; [|done].
    destruct (structured_slot_total p f Hp m Em) as (n' & k' & Hs & _ & Hk).
    rewrite Hs in Hcf. by injection Hcf as _ <-.
  - by apply fallback_slot_key in Hcf.
Qed.

Lemma empty_reads_dom : dom empty_reads = ({["R1"; "R2"]} : gset string).
Proof. unfold empty_reads. rewrite !dom_insert_L, dom_empty_L. set_solver. Qed.

Lemma reads_of_dom h name : forall r : reads,
  (forall e, e ∈ h -> ev_key e = "R1" \/ ev_key e = "R2") ->
  reads_of h name = Some r ->
  dom r = ({["R1"; "R2"]} : gset string).
Proof.
  induction h as [|e h IH]; intros r Hk; simpl; [done|].
  assert (Hk' : forall e', e' ∈ h -> ev_key e' = "R1" \/ ev_key e' = "R2")
    by (intros e' He'; apply Hk; by right).
  destruct (String.eqb (ev_sample e) name); [|by apply IH].
  intros [= <-]. rewrite dom_insert_L.
  assert (Hd : dom (default empty_reads (reads_of h name)) = ({["R1"; "R2"]} : gset string)).
  { destruct (reads_of h name) as [r'|] eqn:E; simpl;
      [by apply IH | apply empty_reads_dom]. }
  rewrite Hd. destruct (Hk e) as [-> | ->]; [left | |]; set_solver.
Qed.

Lemma history_keys l e : e ∈ history (resolve l) -> ev_key e = "R1" \/ ev_key e = "R2".
Proof. intros [_ Hs]%history_char. by apply slot_of_key in Hs. Qed.

Lemma sample_record_dom l name (r : reads) :
  Dict.get name (samples (resolve l)) = Some r ->
  dom r = ({["R1"; "R2"]} : gset string).
Proof.
  rewrite (inv_samples _ (pi_inv _ _ _ (resolve_inv l))).
  apply reads_of_dom. apply history_keys.
Qed.

(** X3. Every record of [samples] has the two keys R1 and R2 and no
    other: the reading of [reads["R1"]] and [reads["R2"]] in the
    validation never misses a key, and a match never adds a third one. *)
Theorem X3_sample_record_keys l name (r : reads) :
  Dict.get name (samples (resolve l)) = Some r ->
  dom r = ({["R1"; "R2"]} : gset string).
Proof.
  rewrite (inv_samples _ (pi_inv _ _ _ (resolve_inv l))).
  apply reads_of_dom. apply history_keys.
Qed.

Lemma X3_sample_record_keys_witness :
  dom (<["R1" := Some "/data/sampleA_R1.fastq.gz"]> empty_reads)
  = ({["R1"; "R2"]} : gset string).
Proof.
  apply (X3_sample_record_keys only_R1 "sampleA"). vm_compute. reflexivity.
Defined.


(** ** Warnings *)

Lemma string_length_app (a b : string) :
  String.length (a ++ b)%string = (String.length a + String.length b)%nat.
Proof. induction a as [|c a IH]; simpl; [done | by rewrite IH]. Qed.

Lemma string_app_inj_r (s a b : string) : (a ++ s)%string = (b ++ s)%string -> a = b.
Proof.
  revert b. induction a as [|c a IH]; intros [|d b] H; simpl in H.
  - done.
  - apply (f_equal String.length) in H.
    rewrite ?string_length_app in H. simpl in H.
    rewrite ?string_length_app in H. lia.
  - apply (f_equal String.length) in H.
    rewrite ?string_length_app in H. simpl in H.
    rewrite ?string_length_app in H. lia.
  - injection H as -> H. f_equal. by apply IH.
Qed.

Lemma warning_inj a b : warning a = warning b -> a = b.
Proof.
  unfold warning. intros H%(String.app_inj "Warning: Sample ").
  by apply string_app_inj_r in H.
Qed.

Lemma dict_elem_get {V} (d : Dict.dict V) k v :
  NoDup (Dict.keys d) -> (k, v) ∈ d -> Dict.get k d = Some v.
Proof.
  induction d as [|[k' v'] d IH]; simpl; intros Hnd Hin.
  - by apply elem_of_nil in Hin.
  - apply NoDup_cons in Hnd as [Hk Hnd].
    apply elem_of_cons in Hin as [[= -> ->]|Hin].
    + by rewrite String.eqb_refl.
    + destruct (String.eqb k k') eqn:E; [|by apply IH].
      apply String.eqb_eq in E. subst k'. exfalso. apply Hk.
      apply list_elem_of_fmap. by exists (k, v).
Qed.

Lemma reads_of_filled h name : forall r : reads,
  reads_of h name = Some r ->
  exists e f, e ∈ h /\ r !! ev_key e = Some (Some f).
Proof.
  induction h as [|e h IH]; intros r; simpl; [done|].
  destruct (String.eqb (ev_sample e) name).
  - intros [= <-]. exists e, (ev_file e). split; [left | apply lookup_insert_eq].
  - intros (e' & f & ? & ?)%IH. exists e', f. split; [by right | done].
Qed.

Lemma sample_filled l name (r : reads) :
  Dict.get name (samples (resolve l)) = Some r ->
  is_set "R1" r = true \/ is_set "R2" r = true.
Proof.
  rewrite (inv_samples _ (pi_inv _ _ _ (resolve_inv l))).
  intros (e & f & He & Hr)%reads_of_filled. unfold is_set.
  destruct (history_keys l e He) as [Hk|Hk]; rewrite Hk in Hr; rewrite Hr; auto.
Qed.

Lemma warning_iff l name :
  warning name ∈ (pair_files l).2
  <-> exists r : reads, Dict.get name (samples (resolve l)) = Some r
                        /\ is_set "R1" r <> is_set "R2" r.
Proof.
  split.
  - rewrite pair_files_eq. simpl.
    intros ([k r] & Hw & Hin)%list_elem_of_fmap. simpl in Hw.
    apply warning_inj in Hw. subst k.
    apply list_elem_of_In, filter_In in Hin as [Hin Hc]. apply list_elem_of_In in Hin.
    assert (Hg : Dict.get name (samples (resolve l)) = Some r).
    { apply dict_elem_get; [|done].
      apply inv_keys, pi_inv with classifiers l, resolve_inv. }
    exists r. split; [done|].
    unfold complete in Hc. simpl in Hc.
    destruct (sample_filled l name r Hg) as [H|H]; rewrite H in *;
      destruct (is_set _ r); done.
  - intros (r & Hg & Hne). apply warning_elem with r; [done|].
    unfold complete. simpl. by destruct (is_set "R1" r), (is_set "R2" r).
Qed.

(** X4. No record of [samples] has both slots empty, and the warning of
    a sample is printed exactly when the sample has one mate and lacks
    the other. *)
Theorem X4_warning_iff_one_mate l name :
  (forall r : reads, Dict.get name (samples (resolve l)) = Some r ->
     is_set "R1" r = true \/ is_set "R2" r = true)
  /\ (warning name ∈ (pair_files l).2
      <-> exists r : reads, Dict.get name (samples (resolve l)) = Some r
                            /\ is_set "R1" r <> is_set "R2" r).
Proof. split; [apply sample_filled | apply warning_iff]. Qed.

Lemma X4_warning_iff_one_mate_witness :
  warning "sampleA" ∈ (pair_files only_R2).2.
Proof.
  destruct (X4_warning_iff_one_mate only_R2 "sampleA") as [_ [_ H]].
  apply H. exists (<["R2" := Some "/data/sampleA_R2.fastq.gz"]> empty_reads).
  split; [vm_compute; reflexivity | vm_compute; discriminate].
Defined.

Lemma keys_filter_NoDup {V} (P : string * V -> bool) (d : Dict.dict V) :
  NoDup (Dict.keys d) -> NoDup (Dict.keys (List.filter P d)).
Proof.
  induction d as [|[k v] d IH]; simpl; [done|].
  intros [Hk Hnd]%NoDup_cons. destruct (P (k, v)); simpl; [|by apply IH].
  apply NoDup_cons. split; [|by apply IH].
  intros (x & Hx & Hin)%list_elem_of_fmap. apply Hk.
  apply list_elem_of_fmap. exists x. split; [done|].
  apply list_elem_of_In, filter_In in Hin as [Hin _]. by apply list_elem_of_In.
Qed.

Lemma valid_keys_NoDup l :
  NoDup (Dict.keys (samples (resolve l))) /\ NoDup (Dict.keys (pair_files l).1).
Proof.
  assert (Hk : NoDup (Dict.keys (samples (resolve l))))
    by apply inv_keys, pi_inv with classifiers l, resolve_inv.
  split; [done|]. rewrite pair_files_eq. by apply keys_filter_NoDup.
Qed.

(** X5. The validation splits [samples] in two without reordering: the
    returned mapping is the complete records in the order their samples
    were first seen, the printed lines are the warnings of the other
    records in that order, one warning each and no warning twice. *)
Theorem X5_validation_partitions_samples l :
  (pair_files l).1 = List.filter complete (samples (resolve l))
  /\ (pair_files l).2
     = map warning (Dict.keys (List.filter (fun it => negb (complete it))
                                           (samples (resolve l))))
  /\ (length (pair_files l).1 + length (pair_files l).2
      = length (samples (resolve l)))%nat
  /\ NoDup (Dict.keys (pair_files l).1)
  /\ NoDup (pair_files l).2.
Proof.
  assert (Hk : NoDup (Dict.keys (samples (resolve l))))
    by apply inv_keys, pi_inv with classifiers l, resolve_inv.
  rewrite pair_files_eq. simpl. split_and!.
  - done.
  - unfold Dict.keys. by rewrite map_map.
  - rewrite length_map. apply filter_length.
  - by apply keys_filter_NoDup.
  - rewrite <- (map_map fst warning).
    apply (NoDup_fmap_2_strong warning).
    + intros a b _ _. apply warning_inj.
    + by apply keys_filter_NoDup.
Qed.

(** ** Files that nothing accepts *)

Lemma first_slot_None cs f c :
  first_slot cs f = None -> c ∈ cs -> c f = None.
Proof.
  induction cs as [|c' cs IH]; simpl; intros H Hc.
  - by apply elem_of_nil in Hc.
  - destruct (c' f) eqn:E; [done|].
    apply elem_of_cons in Hc as [->|Hc]; [done | by apply IH].
Qed.

Lemma step_none c st f : c f = None -> step c st f = st.
Proof. intros H. unfold step. rewrite H. by destruct (decide _). Qed.

Lemma pass_skip c f l1 l2 st :
  c f = None ->
  fold_left (step c) (l1 ++ f :: l2) st = fold_left (step c) (l1 ++ l2) st.
Proof.
  intros H. rewrite !fold_left_app. simpl. by rewrite step_none.
Qed.

Lemma run_passes_skip f l1 l2 : forall cs st,
  (forall c, c ∈ cs -> c f = None) ->
  run_passes cs (l1 ++ f :: l2) st = run_passes cs (l1 ++ l2) st.
Proof.
  unfold run_passes. induction cs as [|c cs IH]; intros st H; simpl; [done|].
  rewrite pass_skip by (apply H; left). apply IH.
  intros c' Hc'. apply H. by right.
Qed.

(** X6. A candidate file that no structured pattern matches and that
    carries no mate token leaves no trace: with or without it in the
    list, wherever it stands, the run ends in the same state and
    [find_fastq_pairs] returns the same mapping and prints the same
    lines, none of them about that file. *)
Theorem X6_unclassified_file_ignored f l1 l2 :
  slot_of f = None ->
  resolve (l1 ++ f :: l2) = resolve (l1 ++ l2)
  /\ pair_files (l1 ++ f :: l2) = pair_files (l1 ++ l2).
Proof.
  intros H.
  assert (E : resolve (l1 ++ f :: l2) = resolve (l1 ++ l2)).
  { rewrite !resolve_run. apply run_passes_skip.
    intros c Hc. by apply (first_slot_None classifiers). }
  split; [done|]. unfold pair_files. by rewrite E.
Qed.

Lemma X6_unclassified_file_ignored_witness :
  resolve (fastq_files "/data" illumina_dir ++ "/data/reads.fastq.gz" :: [])
  = resolve (fastq_files "/data" illumina_dir ++ [])
  /\ pair_files (fastq_files "/data" illumina_dir ++ "/data/reads.fastq.gz" :: [])
     = pair_files (fastq_files "/data" illumina_dir ++ []).
Proof.
  apply X6_unclassified_file_ignored. vm_compute. reflexivity.
Defined.

(** ** The candidates of a listing *)

Lemma has_char_app c a b :
  Str.has_char c (a ++ b)%string = (Str.has_char c a || Str.has_char c b)%bool.
Proof.
  induction a as [|d a IH]; [reflexivity|].
  change (String d a ++ b)%string with (String d (a ++ b)%string).
  cbn [Str.has_char].
  destruct (Ascii.eqb c d); [reflexivity | apply IH].
Qed.

Lemma basename_no_slash n : Str.has_char "/" n = false -> Str.basename n = n.
Proof.
  destruct n as [|c n]; cbn [Str.has_char Str.basename]; [done|].
  destruct (Ascii.eqb "/" c) eqn:E; [done|]. intros ->.
  rewrite Ascii.eqb_sym in E. by rewrite E.
Qed.

Lemma basename_slash a n :
  Str.has_char "/" n = false -> Str.basename (a ++ String "/" n)%string = n.
Proof.
  intros Hn. induction a as [|c a IH].
  - change ("" ++ String "/" n)%string with (String "/" n).
    cbn [Str.basename]. by rewrite Hn, Ascii.eqb_refl.
  - change (String c a ++ String "/" n)%string with (String c (a ++ String "/" n)%string).
    cbn [Str.basename]. rewrite has_char_app. cbn [Str.has_char].
    by rewrite Ascii.eqb_refl, orb_true_r.
Qed.

Lemma endswith_slash a :
  Str.endswith "/" a = true -> exists a', a = (a' ++ "/")%string.
Proof.
  induction a as [|c a IH]; cbn [Str.endswith]; [done|].
  destruct (String.eqb "/" (String c a)) eqn:E.
  - apply String.eqb_eq in E. injection E as <- <-. by exists "".
  - intros (a' & ->)%IH. by exists (String c a').
Qed.

Lemma string_app_assoc (a b c : string) :
  ((a ++ b) ++ c)%string = (a ++ (b ++ c))%string.
Proof.
  induction a as [|x a IH]; [reflexivity|].
  change (String x ((a ++ b) ++ c)%string = String x (a ++ (b ++ c))%string).
  by rewrite IH.
Qed.

(** [os.path.basename] undoes [os.path.join] on a name without a slash. *)
Lemma basename_join d n :
  Str.has_char "/" n = false -> Str.basename (Str.join d n) = n.
Proof.
  intros Hn. unfold Str.join.
  destruct (String.eqb d "") eqn:Ed; simpl.
  - apply String.eqb_eq in Ed. subst d. by apply basename_no_slash.
  - destruct (Str.endswith "/" d) eqn:Es.
    + apply endswith_slash in Es as [d' ->].
      rewrite string_app_assoc. by apply basename_slash.
    + by apply basename_slash.
Qed.

Lemma glob1_elem suffix names n :
  n ∈ Fs.glob1 suffix names
  <-> n ∈ names /\ Str.startswith "." n = false /\ Str.endswith suffix n = true.
Proof.
  unfold Fs.glob1. rewrite list_elem_of_In, filter_In, <- list_elem_of_In.
  rewrite andb_true_iff, negb_true_iff. tauto.
Qed.

(** ** The matcher and what a pattern matches *)

Lemma plus_loop_sound {A} a : forall s (k : string -> option A) res,
  Re.plus_loop a s k = Some res ->
  exists w s', w <> "" /\ all_match a w = true /\ s = (w ++ s')%string
               /\ k s' = Some res.
Proof.
  induction s as [|c s IH]; intros k res; cbn [Re.plus_loop]; [done|].
  destruct (Re.cmatch a c) eqn:Ec; [|done].
  destruct (Re.plus_loop a s k) as [r|] eqn:E.
  - intros [= <-]. apply IH in E as (w & s' & Hw & Hall & -> & Hk).
    exists (String c w), s'. split_and!; [done | | done | done].
    cbn [all_match]. by rewrite Ec, Hall.
  - intros Hk. exists (String c ""), s. split_and!; [done | | done | done].
    cbn [all_match]. by rewrite Ec.
Qed.

Lemma plus_loop_complete {A} a (k : string -> option A) s' : forall w,
  w <> "" -> all_match a w = true -> is_Some (k s') ->
  is_Some (Re.plus_loop a (w ++ s')%string k).
Proof.
  induction w as [|c w IH]; intros Hw Hall Hk; [done|].
  change (String c w ++ s')%string with (String c (w ++ s')%string).
  cbn [Re.plus_loop all_match] in *.
  apply andb_true_iff in Hall as [-> Hall].
  destruct w as [|d w].
  - change ("" ++ s')%string with s'. by destruct (Re.plus_loop a s' k).
  - destruct (IH ltac:(done) Hall Hk) as [r ->]. by eexists.
Qed.

Lemma take_app_length (w s' : string) :
  Str.take (String.length (w ++ s')%string - String.length s') (w ++ s')%string = w.
Proof.
  rewrite string_length_app.
  replace (String.length w + String.length s' - String.length s')%nat
    with (String.length w) by lia.
  induction w as [|c w IH]; [by destruct s'|].
  change (String c w ++ s')%string with (String c (w ++ s')%string).
  cbn [String.length Str.take]. by rewrite IH.
Qed.

(** A successful run of the matcher went through a match of [r], and
    left alone the groups that [r] does not have. *)
Lemma go_sound r : forall s caps k res,
  Re.go r s caps k = Some res ->
  exists s' caps',
    lang r s s' /\ k s' caps' = Some res
    /\ (forall n, mentions n r = false -> caps' n = caps n).
Proof.
  induction r as [b|b|r IH|r1 IH1 r2 IH2|m r IH| |]; intros s caps k res;
    cbn [Re.go lang mentions].
  - destruct s as [|c s]; [done|]. destruct (Re.cmatch b c) eqn:Ec; [|done].
    intros H. exists s, caps. split_and!; [by exists c | done | done].
  - intros (w & s' & Hw & Hall & -> & Hk)%plus_loop_sound.
    exists s', caps. split_and!; [by exists w | done | done].
  - destruct (Re.go r s caps k) as [res'|] eqn:E.
    + intros [= <-]. destruct (IH _ _ _ _ E) as (s' & caps' & ? & ? & ?).
      exists s', caps'. split_and!; [by left | done | done].
    + intros H. exists s, caps. split_and!; [by right | done | done].
  - intros H.
    destruct (IH1 _ _ _ _ H) as (s1 & caps1 & Hl1 & H' & Hf1).
    destruct (IH2 _ _ _ _ H') as (s2 & caps2 & Hl2 & H'' & Hf2).
    exists s2, caps2. split_and!; [by exists s1 | done |].
    intros n [Hn1 Hn2]%orb_false_iff. by rewrite Hf2, Hf1.
  - intros H. destruct (IH _ _ _ _ H) as (s' & caps' & Hl & H' & Hf).
    eexists s', _. split_and!; [done | exact H' |].
    intros n [Hn Hn']%orb_false_iff. unfold Re.set_group. rewrite Hn. by apply Hf.
  - destruct (_ || _)%bool eqn:E; [|done]. intros H. exists s, caps.
    split; [|by split]. split; [done|].
    apply orb_true_iff in E as [E|E]; apply String.eqb_eq in E; auto.
  - intros H. exists s, caps. by split_and!.
Qed.

(** Where [r] matches and the continuation accepts what is left, the
    matcher succeeds. *)
Lemma go_complete r : forall s s' caps k,
  lang r s s' -> (forall caps', is_Some (k s' caps')) ->
  is_Some (Re.go r s caps k).
Proof.
  induction r as [b|b|r IH|r1 IH1 r2 IH2|m r IH| |]; intros s s' caps k;
    cbn [Re.go lang].
  - intros (c & -> & Hc) Hk. by rewrite Hc.
  - intros (w & Hw & Hall & ->) Hk. by apply plus_loop_complete.
  - intros [Hl| ->] Hk.
    + destruct (IH _ _ caps k Hl Hk) as [res ->]. by eexists.
    + destruct (Re.go r s caps k); [by eexists | apply Hk].
  - intros (mid & Hl1 & Hl2) Hk. apply (IH1 _ mid); [done|].
    intros caps'. by apply (IH2 _ s').
  - intros Hl Hk. apply (IH _ s'); [done|]. intros caps'. apply Hk.
  - intros [-> [-> | ->]] Hk; [apply Hk|].
    rewrite String.eqb_refl, orb_true_r. apply Hk.
  - intros -> Hk. apply Hk.
Qed.

Lemma re_match_lang r s : is_Some (Re.re_match r s) <-> exists s', lang r s s'.
Proof.
  unfold Re.re_match. split.
  - intros [m (s' & caps' & Hl & _)%go_sound]. by exists s'.
  - intros [s' Hl]. apply (go_complete r s s'); [done|]. by eexists.
Qed.

(** ** The lane pattern *)

Lemma all_match_app a (w1 w2 : string) :
  all_match a (w1 ++ w2)%string = (all_match a w1 && all_match a w2)%bool.
Proof.
  induction w1 as [|c w1 IH]; [reflexivity|].
  change (String c w1 ++ w2)%string with (String c (w1 ++ w2)%string).
  cbn [all_match]. by rewrite IH, andb_assoc.
Qed.

Lemma digit_is_dot c : Re.cmatch Re.Digit c = true -> Re.cmatch Re.Dot c = true.
Proof.
  cbn [Re.cmatch]. intros H. destruct (Ascii.eqb c Re.newline) eqn:E; [|done].
  apply Ascii.eqb_eq in E. subst c. vm_compute in H. discriminate H.
Qed.

Lemma digits_are_dots w : all_match Re.Digit w = true -> all_match Re.Dot w = true.
Proof.
  induction w as [|c w IH]; cbn [all_match]; [done|].
  intros [Hc Hw]%andb_true_iff. by rewrite (digit_is_dot c Hc), IH.
Qed.

Lemma lit_match d c : Re.cmatch (Re.Lit d) c = true -> c = d.
Proof. cbn [Re.cmatch]. by intros ->%Ascii.eqb_eq. Qed.

Lemma lane_sub T s s' :
  lang (Re.Cat (Re.Group 1 (Re.Plus Re.Dot))
          (Re.Cat (Re.lits "_L")
             (Re.Cat (Re.Plus Re.Digit) (Re.Cat (Re.lits "_") T)))) s s' ->
  lang (Re.Cat (Re.Group 1 (Re.Plus Re.Dot)) (Re.Cat (Re.lits "_") T)) s s'.
Proof.
  cbn [lang Re.lits].
  intros (m1 & (w & Hw & Hall & ->) & m2 & (m1' & (c1 & -> & Hc1) & (c2 & -> & Hc2))
          & m3 & (dg & Hdg & Hdall & ->) & m4 & (c3 & -> & Hc3) & HT).
  apply lit_match in Hc1, Hc2. subst c1 c2.
  exists (String c3 m4). split.
  - exists (w ++ "_L" ++ dg)%string. split_and!.
    + by destruct w.
    + rewrite !all_match_app, Hall, (digits_are_dots dg Hdall). done.
    + by rewrite !string_app_assoc.
  - exists m4. split; [by exists c3 | done].
Qed.

Lemma lane_is_numbered b :
  is_Some (Re.re_match pat_lane b) -> is_Some (Re.re_match pat_numbered b).
Proof.
  rewrite !re_match_lang. intros [s' H]. exists s'. by apply lane_sub.
Qed.

Lemma first_slot_is_Some cs f c :
  c ∈ cs -> is_Some (c f) -> is_Some (first_slot cs f).
Proof.
  induction cs as [|c' cs IH]; intros Hc Hcf.
  - by apply elem_of_nil in Hc.
  - cbn [first_slot]. destruct (c' f) eqn:E; [by eexists|].
    apply elem_of_cons in Hc as [->|Hc]; [|by apply IH].
    rewrite E in Hcf. by destruct Hcf.
Qed.

Lemma pass_noop c l : forall st,
  (forall f, f ∈ l -> is_Some (c f) -> f ∈ matched_files st) ->
  fold_left (step c) l st = st.
Proof.
  induction l as [|f l IH]; intros st H; cbn [fold_left]; [done|].
  assert (E : step c st f = st).
  { unfold step. destruct (decide _) as [|Hf]; [done|].
    destruct (c f) eqn:Ec; [|done]. exfalso. apply Hf, H; [left | by rewrite Ec]. }
  rewrite E. apply IH. intros g Hg. apply H. by right.
Qed.

Lemma structured_slot_is_Some p f :
  p ∈ patterns ->
  is_Some (structured_slot p f) <-> is_Some (Re.re_match p (Str.basename f)).
Proof.
  intros Hp. split.
  - unfold structured_slot. destruct (Re.re_match _ _); [by eexists|]. by intros [].
  - intros [m Hm]. destruct (structured_slot_total p f Hp m Hm) as (n & k & -> & _).
    by eexists.
Qed.

(** X8. The lane pattern, the last of the list, never records a file:
    a basename that it matches is matched by the numbered pattern, which
    stands before it, so the structured pass over the five patterns ends
    in the state that the first four lead to. *)
Theorem X8_lane_pattern_never_records l :
  (forall b, is_Some (Re.re_match pat_lane b) -> is_Some (Re.re_match pat_numbered b))
  /\ structured_pass patterns l init = structured_pass patterns_without_lane l init
  /\ resolve l = fallback_pass l (structured_pass patterns_without_lane l init).
Proof.
  split; [apply lane_is_numbered|].
  assert (E : structured_pass patterns l init
              = structured_pass patterns_without_lane l init).
  { change patterns with (patterns_without_lane ++ [pat_lane]).
    unfold structured_pass at 1. rewrite fold_left_app. cbn [fold_left].
    fold (structured_pass patterns_without_lane l init).
    rewrite pattern_pass_step. apply pass_noop. intros f Hf Hs.
    rewrite structured_pass_run.
    pose proof (run_passes_inv l (map structured_slot patterns_without_lane) [] init) as HP.
    destruct HP as [_ _ Hc].
    { split; [apply Inv_init | | done]. intros e He. by apply elem_of_nil in He. }
    apply Hc; [done|]. cbn [app].
    apply not_eq_None_Some.
    apply (first_slot_is_Some _ f (structured_slot pat_numbered)).
    - apply list_elem_of_fmap. exists pat_numbered. split; [done|].
      unfold patterns_without_lane. set_solver.
    - apply structured_slot_is_Some; [unfold patterns; set_solver|].
      apply lane_is_numbered.
      apply structured_slot_is_Some; [unfold patterns; set_solver | done]. }
  split; [done|]. unfold resolve. by rewrite E.
Qed.

Lemma X8_lane_pattern_never_records_witness :
  is_Some (Re.re_match pat_numbered "sample_L001_1.fastq.gz").
Proof.
  destruct (X8_lane_pattern_never_records []) as [H _].
  apply H. vm_compute. by eexists.
Defined.

(** ** Sample names *)

Lemma name_prefix rest b m :
  mentions 1 rest = false ->
  (forall s s', lang rest s s' -> exists t, s = String "_" t) ->
  Re.re_match (Re.Cat (Re.Group 1 (Re.Plus Re.Dot)) rest) b = Some m ->
  exists name t,
    m 1%nat = Some name /\ name <> "" /\ all_match Re.Dot name = true
    /\ b = (name ++ String "_" t)%string.
Proof.
  intros Hm Hus. unfold Re.re_match. cbn [Re.go].
  intros (w & s' & Hw & Hall & -> & Hk)%plus_loop_sound. cbn beta in Hk.
  apply go_sound in Hk as (s'' & caps'' & Hl & [= <-] & Hf).
  destruct (Hus _ _ Hl) as [t ->].
  exists w, t. split_and!; [|done|done|done].
  rewrite (Hf 1%nat Hm). unfold Re.set_group. cbn [Nat.eqb].
  by rewrite take_app_length.
Qed.

Lemma starts_chr s s' : lang (Re.Chr (Re.Lit "_")) s s' -> exists t, s = String "_" t.
Proof. cbn [lang]. intros (c & -> & ->%lit_match). by eexists. Qed.

Lemma starts_cat r1 r2 :
  (forall s s', lang r1 s s' -> exists t, s = String "_" t) ->
  forall s s', lang (Re.Cat r1 r2) s s' -> exists t, s = String "_" t.
Proof. intros H s s'. cbn [lang]. intros (mid & Hl & _). by apply H in Hl. Qed.

(** X9. The sample name that a structured pattern extracts is never
    empty, holds no newline, and is a prefix of the basename that an
    underscore follows. *)
Theorem X9_structured_sample_name p f name key :
  p ∈ patterns ->
  structured_slot p f = Some (name, key) ->
  name <> "" /\ all_match Re.Dot name = true
  /\ exists t, Str.basename f = (name ++ String "_" t)%string.
Proof.
  intros Hp Hs. unfold structured_slot in Hs.
  destruct (Re.re_match p (Str.basename f)) as [m|] eqn:Em; [|done].
  assert (H : exists name' t, m 1%nat = Some name' /\ name' <> ""
                /\ all_match Re.Dot name' = true
                /\ Str.basename f = (name' ++ String "_" t)%string).
  { apply list_elem_of_In in Hp. cbn [patterns In] in Hp.
    destruct Hp as [<-|[<-|[<-|[<-|[<-|[]]]]]];
      (eapply name_prefix; [| |exact Em]; [reflexivity|]);
      repeat first [exact starts_chr | apply starts_cat]. }
  destruct H as (name' & t & H1 & Hne & Hall & Hb). rewrite H1 in Hs.
  destruct (m 2%nat); [|done]. injection Hs as <- _. eauto.
Qed.

Lemma X9_structured_sample_name_witness :
  "run1" <> ""
  /\ all_match Re.Dot "run1" = true
  /\ exists t, Str.basename "/data/run1_S1_L001_R1_001.fastq.gz"
               = ("run1" ++ String "_" t)%string.
Proof.
  apply (X9_structured_sample_name pat_illumina
           "/data/run1_S1_L001_R1_001.fastq.gz" "run1" "R1").
  - left.
  - vm_compute. reflexivity.
Defined.

Lemma startswith_spec p : forall s,
  Str.startswith p s = true -> exists rest, s = (p ++ rest)%string.
Proof.
  induction p as [|a p IH]; intros s; [by exists s|].
  destruct s as [|b s]; cbn [Str.startswith]; [done|].
  destruct (Ascii.eqb a b) eqn:E; [|done]. apply Ascii.eqb_eq in E. subst b.
  intros (rest & ->)%IH. by exists rest.
Qed.

Lemma startswith_app_r p : forall x y,
  Str.startswith p x = true -> Str.startswith p (x ++ y)%string = true.
Proof.
  induction p as [|a p IH]; intros x y; [done|].
  destruct x as [|b x]; cbn [Str.startswith]; [done|].
  change (String b x ++ y)%string with (String b (x ++ y)%string).
  cbn [Str.startswith]. destruct (Ascii.eqb a b); [apply IH | done].
Qed.

Lemma split_head_unfold sep s :
  Str.split_head sep s
  = if Str.startswith sep s then EmptyString
    else match s with
         | EmptyString => EmptyString
         | String c s' => String c (Str.split_head sep s')
         end.
Proof. by destruct s. Qed.

Lemma split_head_prefix sep s : exists rest, s = (Str.split_head sep s ++ rest)%string.
Proof.
  induction s as [|c s [rest IH]]; rewrite split_head_unfold.
  - destruct (Str.startswith sep ""); by exists "".
  - destruct (Str.startswith sep (String c s)); [by eexists|].
    exists rest. change (String c s = String c (Str.split_head sep s ++ rest)%string).
    by rewrite <- IH.
Qed.

Lemma split_head_spec sep s :
  Str.contains sep s = true ->
  exists rest, s = (Str.split_head sep s ++ sep ++ rest)%string.
Proof.
  induction s as [|c s IH]; rewrite contains_unfold, split_head_unfold.
  - destruct (Str.startswith sep "") eqn:E; [|done].
    intros _. by apply startswith_spec in E.
  - destruct (Str.startswith sep (String c s)) eqn:E.
    + intros _. by apply startswith_spec in E.
    + intros [rest Hr]%IH. exists rest.
      change (String c s = String c (Str.split_head sep s ++ sep ++ rest)%string).
      by rewrite <- Hr.
Qed.

Lemma split_head_first a sep s :
  Str.contains (String a sep) (Str.split_head (String a sep) s) = false.
Proof.
  induction s as [|c s IH]; rewrite split_head_unfold.
  - by destruct (Str.startswith (String a sep) "").
  - destruct (Str.startswith (String a sep) (String c s)) eqn:E; [done|].
    rewrite contains_unfold, IH.
    destruct (Str.startswith (String a sep) (String c (Str.split_head _ s))) eqn:E'; [|done].
    destruct (split_head_prefix (String a sep) s) as [rest Hr].
    apply (startswith_app_r _ _ rest) in E'.
    change (String c (Str.split_head (String a sep) s) ++ rest)%string
      with (String c (Str.split_head (String a sep) s ++ rest)%string) in E'.
    rewrite <- Hr in E'. congruence.
Qed.

(** X10. The sample name of the fallback heuristic is the part of the
    basename before the first occurrence of the token that decided: _R1
    if the basename has it, else _1, for mate 1; _R2 if the basename has
    it, else _2, for mate 2.  The token follows the name in the basename
    and does not occur within the name. *)
Theorem X10_fallback_sample_name f name key :
  fallback_slot f = Some (name, key) ->
  exists tok rest,
    Str.basename f = (name ++ tok ++ rest)%string
    /\ Str.contains tok name = false
    /\ ((key = "R1" /\ (tok = "_R1" \/ (tok = "_1" /\ Str.contains "_R1" (Str.basename f) = false)))
        \/ (key = "R2" /\ (tok = "_R2" \/ (tok = "_2" /\ Str.contains "_R2" (Str.basename f) = false)))).
Proof.
  unfold fallback_slot. set (b := Str.basename f).
  pose proof (contains_app_l "_R1" "_" b) as H1.
  pose proof (contains_app_l "_R2" "_" b) as H2.
  change ("_R1" ++ "_")%string with "_R1_" in H1.
  change ("_R2" ++ "_")%string with "_R2_" in H2.
  destruct (Str.contains "_R1" b) eqn:E1; cbn [orb].
  - intros [= <- <-]. destruct (split_head_spec _ _ E1) as [rest Hr].
    exists "_R1", rest. split_and!; [done | apply split_head_first | auto].
  - destruct (Str.contains "_1" b) eqn:E2; cbn [orb].
    + intros [= <- <-]. destruct (split_head_spec _ _ E2) as [rest Hr].
      exists "_1", rest. split_and!; [done | apply split_head_first | auto].
    + destruct (Str.contains "_R1_" b); [by specialize (H1 eq_refl)|].
      destruct (Str.contains "_R2" b) eqn:E3; cbn [orb].
      * intros [= <- <-]. destruct (split_head_spec _ _ E3) as [rest Hr].
        exists "_R2", rest. split_and!; [done | apply split_head_first | auto].
      * destruct (Str.contains "_2" b) eqn:E4; cbn [orb].
        -- intros [= <- <-]. destruct (split_head_spec _ _ E4) as [rest Hr].
           exists "_2", rest. split_and!; [done | apply split_head_first | auto].
        -- destruct (Str.contains "_R2_" b); [by specialize (H2 eq_refl) | done].
Qed.

Lemma X10_fallback_sample_name_witness :
  exists tok rest,
    Str.basename two_tokens = ("a" ++ tok ++ rest)%string
    /\ Str.contains tok "a" = false
    /\ (("R1" = "R1" /\ (tok = "_R1" \/ (tok = "_1" /\ Str.contains "_R1" (Str.basename two_tokens) = false)))
        \/ ("R1" = "R2" /\ (tok = "_R2" \/ (tok = "_2" /\ Str.contains "_R2" (Str.basename two_tokens) = false)))).
Proof.
  apply (X10_fallback_sample_name two_tokens "a" "R1"). vm_compute. reflexivity.
Defined.

(** ** The Snakemake configuration and [main] *)

Lemma copy_reads_id (r : reads) :
  dom r = ({["R1"; "R2"]} : gset string) -> copy_reads r = Some r.
Proof.
  intros Hd. unfold copy_reads.
  assert (H1 : is_Some (r !! "R1")) by (apply elem_of_dom; rewrite Hd; set_solver).
  assert (H2 : is_Some (r !! "R2")) by (apply elem_of_dom; rewrite Hd; set_solver).
  destruct H1 as [x1 H1], H2 as [x2 H2]. rewrite H1, H2. f_equal.
  apply map_eq. intros k. rewrite !lookup_insert.
  repeat case_decide; subst; try done.
  symmetry. apply not_elem_of_dom. rewrite Hd. intros Hin.
  apply elem_of_union in Hin as [Hin|Hin]; apply elem_of_singleton in Hin; congruence.
Qed.

Lemma add_samples_id (items : list (string * reads)) : forall acc,
  (forall n r, (n, r) ∈ items -> copy_reads r = Some r) ->
  NoDup (Dict.keys acc ++ Dict.keys items) ->
  add_samples items acc = Some (acc ++ items).
Proof.
  induction items as [|[n r] items IH]; intros acc Hc Hnd; cbn [add_samples].
  - by rewrite app_nil_r.
  - rewrite (Hc n r) by left.
    assert (Hn : n ∉ Dict.keys acc).
    { apply NoDup_app in Hnd as (_ & Hd & _). intros Hin. apply (Hd n Hin). left. }
    rewrite dict_set_fresh by done. rewrite IH.
    + by rewrite <- app_assoc.
    + intros n' r' Hin. apply (Hc n' r'). by right.
    + unfold Dict.keys in *. rewrite map_app. cbn [map fst].
      by rewrite <- app_assoc.
Qed.

Lemma valid_elem l n (r : reads) :
  (n, r) ∈ (pair_files l).1 ->
  Dict.get n (samples (resolve l)) = Some r /\ complete (n, r) = true.
Proof.
  rewrite pair_files_eq. cbn [fst].
  intros [Hin Hc]%list_elem_of_In%filter_In. split; [|done].
  apply dict_elem_get; [|by apply list_elem_of_In].
  apply inv_keys, pi_inv with classifiers l, resolve_inv.
Qed.

(** X11. On the mapping that [find_fastq_pairs] returns,
    [generate_snakemake_config] raises no [KeyError], whatever the
    arguments, and the samples of the configuration are that mapping:
    the same sample names in the same order with the same two files. *)
Theorem X11_snakemake_samples data_dir d a :
  exists cfg,
    generate_snakemake_config (find_fastq_pairs data_dir d).1 a = Some cfg
    /\ cfg_samples cfg = (find_fastq_pairs data_dir d).1.
Proof.
  unfold find_fastq_pairs, generate_snakemake_config.
  set (l := fastq_files data_dir d).
  rewrite (add_samples_id (pair_files l).1 []).
  - by eexists.
  - intros n r [Hg _]%valid_elem. apply copy_reads_id.
    by apply sample_record_dom with l n.
  - cbn [Dict.keys map app].
    destruct (valid_keys_NoDup l) as [_ H]. exact H.
Qed.

Lemma sample_lines_ok can_print (items : list (string * reads)) :
  (forall line, can_print line = true) ->
  (forall n r, (n, r) ∈ items -> complete (n, r) = true) ->
  (sample_lines can_print items).2 = true
  /\ length (sample_lines can_print items).1 = length items.
Proof.
  intros Hp. induction items as [|[n r] items IH]; intros H; cbn [sample_lines]; [done|].
  pose proof (H n r ltac:(left)) as Hc. unfold complete in Hc. cbn [snd] in Hc.
  apply andb_true_iff in Hc as [[f1 H1]%is_set_true [f2 H2]%is_set_true].
  unfold sample_line. rewrite H1, H2, Hp.
  destruct (sample_lines can_print items) as [ls ok] eqn:E.
  destruct IH as [IH1 IH2]; [intros n' r' Hin; apply H; by right|].
  cbn [fst snd length] in *. by rewrite IH2.
Qed.

(** X12. With a standard output that takes every line and a
    [create_directory_structure] that returns, the part of [main] before
    the configurations raises nothing: no key is missing and no mate is
    [None] where the samples are listed.  It ends in [sys.exit(1)]
    exactly when the data directory is not a directory, or the reference
    genome is not a file, or the resolver returns no sample; otherwise
    it goes on with the mapping of the resolver, which then is not
    empty, after printing one line for each of its samples. *)
Theorem X12_main_scan_outcome can_print a abs_dir k ref_is_file created :
  (forall line, can_print line = true) ->
  (Args.create_dirs a = true -> created.2 = true) ->
  let r := main_scan can_print a abs_dir k ref_is_file created in
  let result := pair_files (globbed_files abs_dir k) in
  (r.2 = Exit 1
   /\ (Fs.isdir (at_path k) = false \/ ref_is_file = false \/ result.1 = []))
  \/ (r.2 = GoesOn result.1
      /\ Fs.isdir (at_path k) = true /\ ref_is_file = true /\ result.1 <> []
      /\ exists ls, length ls = length result.1
           /\ r.1 = (if Args.create_dirs a then created.1 else [])
                    ++ [("Scanning " ++ Args.data_dir a ++ " for FASTQ files...")%string]
                    ++ result.2
                    ++ [("Found " ++ pretty (length result.1)
                         ++ " samples with paired-end reads:")%string]
                    ++ ls).
Proof.
  intros Hp Hcr. cbn zeta. unfold main_scan, check_data_dir.
  destruct (Fs.isdir (at_path k)) eqn:Ed; cbn [negb];
    [|rewrite Hp; left; auto].
  destruct ref_is_file; cbn [negb]; [|rewrite Hp; left; auto].
  assert (Hmade : (if Args.create_dirs a then created else ([], true))
                  = (if Args.create_dirs a then created.1 else [], true)).
  { destruct (Args.create_dirs a); [|done].
    destruct created as [ls ok]. cbn [fst snd] in *. by rewrite Hcr. }
  rewrite Hmade. cbn [negb]. rewrite Hp. cbn [negb].
  assert (Hio : find_fastq_pairs_io can_print abs_dir k
                = ((pair_files (globbed_files abs_dir k)).2,
                   Some (pair_files (globbed_files abs_dir k)).1)).
  { destruct (find_fastq_pairs_io can_print abs_dir k).2 as [v|] eqn:E.
    - by apply find_io_returns with v.
    - apply find_io_raises in E as (name & _ & Hw). by rewrite Hp in Hw. }
  rewrite Hio.
  destruct (pair_files (globbed_files abs_dir k)) as [valid printed] eqn:E.
  cbn [fst snd].
  destruct valid as [|it valid]; [rewrite Hp; left; auto|]. right.
  rewrite Hp. cbn [negb].
  destruct (sample_lines_ok can_print (it :: valid) Hp) as [Hok Hlen].
  { intros n r Hin. apply (valid_elem (globbed_files abs_dir k)). by rewrite E. }
  destruct (sample_lines can_print (it :: valid)) as [ls ok]. cbn [fst snd] in *. subst ok.
  split_and!; [done | done | done | done |].
  exists ls. split; [done|]. by rewrite <- !app_assoc.
Qed.

Lemma X12_main_scan_outcome_witness :
  (main_scan prints_all
     (Args.Make "/data" "ref.fa" None "config.yaml" "adapter/TruSeq3-PE.fa"
                "both" 8 16 false "")
     "/data" (Disk illumina_dir []) true ([], true)).2
  = GoesOn (pair_files (globbed_files "/data" (Disk illumina_dir []))).1.
Proof.
  destruct (X12_main_scan_outcome prints_all
              (Args.Make "/data" "ref.fa" None "config.yaml" "adapter/TruSeq3-PE.fa"
                         "both" 8 16 false "")
              "/data" (Disk illumina_dir []) true ([], true))
    as [[_ [H|[H|H]]]|[H _]].
  - reflexivity.
  - reflexivity.
  - discriminate H.
  - discriminate H.
  - vm_compute in H. discriminate H.
  - exact H.
Defined.

(** ** A slot that both passes fill *)

Lemma record_history name key f st :
  history (record name key f st) = Event f name key :: history st.
Proof. reflexivity. Qed.

Lemma pass_history c l : forall st,
  exists h', history (fold_left (step c) l st) = h' ++ history st
             /\ forall e, e ∈ h' -> ev_file e ∉ matched_files st.
Proof.
  induction l as [|f l IH]; intros st; cbn [fold_left].
  - exists []. split; [done|]. intros e He. by apply elem_of_nil in He.
  - destruct (IH (step c st f)) as (h' & Hh & Hm). unfold step in *.
    destruct (decide (f ∈ matched_files st)) as [|Hf]; [by exists h'|].
    destruct (c f) as [[n k]|]; [|by exists h'].
    exists (h' ++ [Event f n k]). split.
    + by rewrite Hh, record_history, <- app_assoc.
    + intros e [He| ->%list_elem_of_singleton]%elem_of_app; [|done].
      intros Hin. apply (Hm e He). cbn [record matched_files].
      apply elem_of_union. by right.
Qed.

Lemma latest_app h1 h2 name key :
  latest (h1 ++ h2) name key
  = match latest h1 name key with
    | Some f => Some f
    | None => latest h2 name key
    end.
Proof.
  induction h1 as [|e h1 IH]; cbn [app latest]; [done|].
  by destruct (_ && _)%bool.
Qed.

(** X14. The fallback pass runs last and last match wins: when a file
    that no structured pattern matches resolves, by the fallback
    heuristic, to a slot, then at the end that slot holds a file that
    the fallback heuristic put there, whatever the order of the list,
    and any file that a structured pattern had put into the slot has
    been replaced. *)
Theorem X14_fallback_file_takes_slot l g name key :
  g ∈ l ->
  first_slot (map structured_slot patterns) g = None ->
  fallback_slot g = Some (name, key) ->
  exists (r : reads) f,
    Dict.get name (samples (resolve l)) = Some r
    /\ r !! key = Some (Some f)
    /\ first_slot (map structured_slot patterns) f = None
    /\ fallback_slot f = Some (name, key).
Proof.
  intros Hg Hns Hfb.
  set (st := structured_pass patterns l init).
  assert (HP : PassInv (map structured_slot patterns) l st).
  { unfold st. rewrite structured_pass_run.
    apply (run_passes_inv l (map structured_slot patterns) []).
    split; [apply Inv_init | | done]. intros e He. by apply elem_of_nil in He. }
  destruct (pass_history fallback_slot l st) as (hf & Hh & Hm).
  assert (Hres : history (resolve l) = hf ++ history st).
  { unfold resolve. fold st. by rewrite fallback_pass_run. }
  assert (Hhf : forall e, e ∈ hf ->
            first_slot (map structured_slot patterns) (ev_file e) = None
            /\ fallback_slot (ev_file e) = Some (ev_sample e, ev_key e)).
  { intros e He.
    assert (He' : e ∈ history (resolve l)) by (rewrite Hres; apply elem_of_app; by left).
    apply history_char in He' as [Hl Hs].
    destruct (first_slot (map structured_slot patterns) (ev_file e)) eqn:E.
    - exfalso. apply (Hm e He). apply (pi_complete _ _ _ HP); [done|]. by rewrite E.
    - split; [done|]. by rewrite <- slot_of_unstructured. }
  assert (Hgh : Event g name key ∈ hf).
  { assert (He : Event g name key ∈ history (resolve l)).
    { apply history_char. cbn [ev_file ev_sample ev_key].
      split; [done|]. by rewrite slot_of_unstructured. }
    rewrite Hres in He. apply elem_of_app in He as [He|He]; [done|].
    apply (pi_sound _ _ _ HP) in He as [_ He]. cbn [ev_file] in He. congruence. }
  destruct (latest hf name key) as [f|] eqn:El;
    [|by apply (latest_None _ _ _ g) in El].
  pose proof (latest_Some _ _ _ _ El) as Hf. apply Hhf in Hf as [Hf1 Hf2].
  cbn [ev_file ev_sample ev_key] in Hf1, Hf2.
  pose proof (inv_samples _ (pi_inv _ _ _ (resolve_inv l)) name) as Hs.
  destruct (reads_of (history (resolve l)) name) as [r|] eqn:Er.
  - exists r, f. split_and!; [done | | done | done].
    rewrite (reads_of_lookup _ _ _ key Er), Hres, latest_app. by rewrite El.
  - exfalso. apply (proj1 (reads_of_None _ _) Er (Event g name key)); [|done].
    rewrite Hres. apply elem_of_app. by left.
Qed.

Lemma X14_fallback_file_takes_slot_witness :
  exists (r : reads) f,
    Dict.get "s" (samples (resolve ["/d/s_R1x.fastq.gz"; "/d/s_R1.fastq.gz"])) = Some r
    /\ r !! "R1" = Some (Some f)
    /\ first_slot (map structured_slot patterns) f = None
    /\ fallback_slot f = Some ("s", "R1").
Proof.
  apply (X14_fallback_file_takes_slot
           ["/d/s_R1x.fastq.gz"; "/d/s_R1.fastq.gz"] "/d/s_R1x.fastq.gz").
  - left.
  - vm_compute. reflexivity.
  - vm_compute. reflexivity.
Defined.

(** ** A file listed again *)

Lemma fold_step_mono c l : forall st g,
  g ∈ matched_files st -> g ∈ matched_files (fold_left (step c) l st).
Proof.
  induction l as [|f l IH]; intros st g Hg; cbn [fold_left]; [done|].
  by apply IH, step_matched_mono.
Qed.

Lemma pass_complete c l : forall st f,
  f ∈ l -> is_Some (c f) -> f ∈ matched_files (fold_left (step c) l st).
Proof.
  induction l as [|g l IH]; intros st f Hf Hc; cbn [fold_left].
  - by apply elem_of_nil in Hf.
  - apply elem_of_cons in Hf as [->|Hf]; [|by apply IH].
    apply fold_step_mono. unfold step.
    destruct (decide (g ∈ matched_files st)) as [|Hg]; [done|].
    destruct Hc as [[n k] ->]. cbn [record matched_files].
    apply elem_of_union. left. by apply elem_of_singleton.
Qed.

Lemma run_passes_again l l' : forall cs st,
  (forall f, f ∈ l' -> f ∈ l) ->
  run_passes cs (l ++ l') st = run_passes cs l st.
Proof.
  unfold run_passes. induction cs as [|c cs IH]; intros st Hsub; cbn [fold_left]; [done|].
  rewrite fold_left_app, (pass_noop c l'); [by apply IH|].
  intros f Hf Hc. apply pass_complete; [by apply Hsub | done].
Qed.

(** X15. Listing again, at the end, files that the list already holds
    changes nothing: the run ends in the same state, so the mapping
    returned and the lines printed are the same. *)
Theorem X15_repeated_files_change_nothing l l' :
  (forall f, f ∈ l' -> f ∈ l) ->
  resolve (l ++ l') = resolve l /\ pair_files (l ++ l') = pair_files l.
Proof.
  intros Hsub.
  assert (E : resolve (l ++ l') = resolve l)
    by (rewrite !resolve_run; by apply run_passes_again).
  split; [done|]. unfold pair_files. by rewrite E.
Qed.

Lemma X15_repeated_files_change_nothing_witness :
  resolve (only_R1 ++ only_R1) = resolve only_R1
  /\ pair_files (only_R1 ++ only_R1) = pair_files only_R1.
Proof.
  apply X15_repeated_files_change_nothing. intros f Hf. exact Hf.
Defined.

(** ** Samples with both mates *)

Lemma slot_filled l f name key :
  f ∈ l -> slot_of f = Some (name, key) ->
  exists (r : reads) g,
    Dict.get name (samples (resolve l)) = Some r
    /\ r !! key = Some (Some g)
    /\ g ∈ l /\ slot_of g = Some (name, key).
Proof.
  intros Hf Hs.
  assert (He : Event f name key ∈ history (resolve l)) by (by apply history_char).
  destruct (latest (history (resolve l)) name key) as [g|] eqn:El;
    [|by apply (latest_None _ _ _ f) in El].
  pose proof (latest_Some _ _ _ _ El) as [Hg Hgs]%history_char.
  pose proof (inv_samples _ (pi_inv _ _ _ (resolve_inv l)) name) as Hsm.
  destruct (reads_of (history (resolve l)) name) as [r|] eqn:Er.
  - exists r, g. split_and!; [done | | done | done].
    by rewrite (reads_of_lookup _ _ _ key Er), El.
  - exfalso. by apply (proj1 (reads_of_None _ _) Er (Event f name key)).
Qed.

(** X16. A sample for which the list holds a file resolving to its R1
    slot and a file resolving to its R2 slot is in the returned mapping,
    with in each slot a candidate that resolves to that slot, and no
    warning is printed for it. *)
Theorem X16_paired_sample_returned l f1 f2 name :
  f1 ∈ l -> f2 ∈ l ->
  slot_of f1 = Some (name, "R1") ->
  slot_of f2 = Some (name, "R2") ->
  (exists (r : reads) g1 g2,
     Dict.get name (pair_files l).1 = Some r
     /\ r !! "R1" = Some (Some g1) /\ r !! "R2" = Some (Some g2)
     /\ g1 ∈ l /\ slot_of g1 = Some (name, "R1")
     /\ g2 ∈ l /\ slot_of g2 = Some (name, "R2"))
  /\ warning name ∉ (pair_files l).2.
Proof.
  intros Hf1 Hf2 Hs1 Hs2.
  destruct (slot_filled l f1 name "R1" Hf1 Hs1) as (r & g1 & Hg & Hr1 & Hg1 & Hgs1).
  destruct (slot_filled l f2 name "R2" Hf2 Hs2) as (r' & g2 & Hg' & Hr2 & Hg2 & Hgs2).
  rewrite Hg in Hg'. injection Hg' as <-.
  assert (Hc : complete (name, r) = true).
  { unfold complete, is_set. cbn [snd]. by rewrite Hr1, Hr2. }
  split.
  - exists r, g1, g2. rewrite valid_get, Hg, Hc. by split_and!.
  - intros (r' & Hg' & Hne)%warning_iff. rewrite Hg in Hg'. injection Hg' as <-.
    apply Hne. unfold is_set. by rewrite Hr1, Hr2.
Qed.

Lemma X16_paired_sample_returned_witness :
  (exists (r : reads) g1 g2,
     Dict.get "run1" (pair_files (fastq_files "/data" illumina_dir)).1 = Some r
     /\ r !! "R1" = Some (Some g1) /\ r !! "R2" = Some (Some g2)
     /\ g1 ∈ fastq_files "/data" illumina_dir /\ slot_of g1 = Some ("run1", "R1")
     /\ g2 ∈ fastq_files "/data" illumina_dir /\ slot_of g2 = Some ("run1", "R2"))
  /\ warning "run1" ∉ (pair_files (fastq_files "/data" illumina_dir)).2.
Proof.
  apply (X16_paired_sample_returned (fastq_files "/data" illumina_dir)
           "/data/run1_S1_L001_R1_001.fastq.gz" "/data/run1_S1_L001_R2_001.fastq.gz").
  - left.
  - right. left.
  - vm_compute. reflexivity.
  - vm_compute. reflexivity.
Defined.
